(** * rsocket-go: payload frame writer and transport dispatcher

    A shallow embedding of
      - [core/framing/writeable_payload.go] (module [framing]), and
      - the [transport] package's [Transport] type (module [transport]),
    together with the properties the specification states about them.

    Conventions.  Go integers are [Z]; a [[]byte] is a [list byte] (a nil
    slice and an empty one both have length 0, which is the only thing the
    code asks of them); a Go [error] is [option error] with [None] for
    [nil]; an interface value is a record of its methods. *)

From Stdlib Require Import ZArith List Lia Bool String.
From Stdlib.Strings Require Import Byte.
Import ListNotations.
Local Open Scope Z_scope.

(** ** Go errors *)

(** The error values the two packages create or compare against.  [errIO]
    stands for any error made elsewhere (by the connection, a handler or the
    context); [errWrap] is [errors.Wrap], which allocates a new error around
    its cause; [errFrame] is an error decoded from an Error frame. *)
Inductive error : Type :=
| errTransportClosed
| errNoHandler
| io_EOF
| errIO (msg : string)
| errFrame (code : Z) (data : list byte)
| errWrap (cause : error) (msg : string).

(** ** Bytes and big-endian integers *)

Definition Z_of_byte (b : byte) : Z := Z.of_N (Byte.to_N b).

Definition byte_of_Z (z : Z) : byte :=
  match Byte.of_N (Z.to_N (z mod 256)) with
  | Some b => b
  | None => x00
  end.

(** [binary.BigEndian.PutUint32] / [Uint32]. *)
Definition PutUint32 (v : Z) : list byte :=
  [byte_of_Z (Z.shiftr v 24); byte_of_Z (Z.shiftr v 16);
   byte_of_Z (Z.shiftr v 8); byte_of_Z v].

Definition Uint32 (b0 b1 b2 b3 : byte) : Z :=
  Z.lor (Z.lor (Z.shiftl (Z_of_byte b0) 24) (Z.shiftl (Z_of_byte b1) 16))
        (Z.lor (Z.shiftl (Z_of_byte b2) 8) (Z_of_byte b3)).

(** [binary.BigEndian.PutUint16] / [Uint16]. *)
Definition PutUint16 (v : Z) : list byte :=
  [byte_of_Z (Z.shiftr v 8); byte_of_Z v].

Definition Uint16 (b0 b1 : byte) : Z :=
  Z.lor (Z.shiftl (Z_of_byte b0) 8) (Z_of_byte b1).

(** The 24-bit big-endian integer that prefixes metadata. *)
Definition PutUint24 (v : Z) : list byte :=
  [byte_of_Z (Z.shiftr v 16); byte_of_Z (Z.shiftr v 8); byte_of_Z v].

Definition Uint24 (b0 b1 b2 : byte) : Z :=
  Z.lor (Z.shiftl (Z_of_byte b0) 16)
        (Z.lor (Z.shiftl (Z_of_byte b1) 8) (Z_of_byte b2)).

Definition len (bs : list byte) : Z := Z.of_nat (List.length bs).

(** ** Package core: frame header *)

Module core.

(** Modelled from the spec: the [core] package (frame types, flags and the
    frame header) is not among the sources.  The frame types and their
    numeric values are those of the specification's wire-format section. *)
Inductive FrameType : Type :=
| FrameTypeReserved
| FrameTypeSetup
| FrameTypeLease
| FrameTypeKeepalive
| FrameTypeRequestResponse
| FrameTypeRequestFNF
| FrameTypeRequestStream
| FrameTypeRequestChannel
| FrameTypeRequestN
| FrameTypeCancel
| FrameTypePayload
| FrameTypeError
| FrameTypeMetadataPush
| FrameTypeResume
| FrameTypeResumeOK
| FrameTypeExt.

Definition FrameType_code (t : FrameType) : Z :=
  match t with
  | FrameTypeReserved => 0x00
  | FrameTypeSetup => 0x01
  | FrameTypeLease => 0x02
  | FrameTypeKeepalive => 0x03
  | FrameTypeRequestResponse => 0x04
  | FrameTypeRequestFNF => 0x05
  | FrameTypeRequestStream => 0x06
  | FrameTypeRequestChannel => 0x07
  | FrameTypeRequestN => 0x08
  | FrameTypeCancel => 0x09
  | FrameTypePayload => 0x0A
  | FrameTypeError => 0x0B
  | FrameTypeMetadataPush => 0x0C
  | FrameTypeResume => 0x0D
  | FrameTypeResumeOK => 0x0E
  | FrameTypeExt => 0x3F
  end.

Definition FrameType_of_code (c : Z) : option FrameType :=
  match c with
  | 0x00 => Some FrameTypeReserved
  | 0x01 => Some FrameTypeSetup
  | 0x02 => Some FrameTypeLease
  | 0x03 => Some FrameTypeKeepalive
  | 0x04 => Some FrameTypeRequestResponse
  | 0x05 => Some FrameTypeRequestFNF
  | 0x06 => Some FrameTypeRequestStream
  | 0x07 => Some FrameTypeRequestChannel
  | 0x08 => Some FrameTypeRequestN
  | 0x09 => Some FrameTypeCancel
  | 0x0A => Some FrameTypePayload
  | 0x0B => Some FrameTypeError
  | 0x0C => Some FrameTypeMetadataPush
  | 0x0D => Some FrameTypeResume
  | 0x0E => Some FrameTypeResumeOK
  | 0x3F => Some FrameTypeExt
  | _ => None
  end.

Definition FrameType_eqb (a b : FrameType) : bool :=
  FrameType_code a =? FrameType_code b.

(** A frame flag set is a 10-bit integer. *)
Definition FrameFlag : Type := Z.

(** Modelled from the spec: the constant [core.FlagMetadata] is not among the
    sources; the specification names the flag and refers to the RSocket
    protocol for the numeric values, where Metadata is bit 8 of the flags. *)
Definition FlagMetadata : FrameFlag := 0x100.

(** [f.Check(flag)]: every bit of [flag] is set in [f]. *)
Definition Check (f flag : FrameFlag) : bool := Z.land flag f =? flag.

(** Modelled from the spec: [(streamId: u31, type: u6, flags: u10)]. *)
Record FrameHeader : Type := mkFrameHeader {
  StreamID : Z;
  Type_ : FrameType;
  Flag : FrameFlag
}.

Definition NewFrameHeader (id : Z) (t : FrameType) (fg : FrameFlag)
  : FrameHeader := mkFrameHeader id t fg.

Definition FrameHeaderLen : Z := 6.

(** Modelled from the spec: the 48-bit header layout, a reserved bit and the
    31-bit stream id, then 6 bits of type and 10 bits of flags, big-endian. *)
Definition header_bytes (h : FrameHeader) : list byte :=
  PutUint32 (StreamID h)
  ++ PutUint16 (Z.lor (Z.shiftl (FrameType_code (Type_ h)) 10) (Flag h)).

End core.

Import core.

(** ** [io.Writer] *)

(** An [io.Writer] over a writer state [Wr]: [Write] takes the bytes and
    returns the number written and an error. *)
Record io_Writer (Wr : Type) : Type := mkWriter {
  writer_Write : list byte -> Wr -> (Z * option error) * Wr
}.
Arguments writer_Write {Wr} _ _ _.

(** A byte buffer, the writer that appends what it is given and never
    fails ([bytes.Buffer]). *)
Definition Buffer : io_Writer (list byte) :=
  mkWriter (list byte) (fun bs buf => ((len bs, None), buf ++ bs)).

(** ** Package framing: the writeable Payload frame *)

Module framing.

Section Writing.
Context {Wr : Type} (w : io_Writer Wr).

(** Modelled from the spec: [FrameHeader.WriteTo] is not among the sources;
    it hands the six header bytes to the writer. *)
Definition header_WriteTo (h : FrameHeader) (s : Wr) : (Z * option error) * Wr :=
  writer_Write w (header_bytes h) s.

(** Modelled from the spec: the helper [writePayload] is not among the
    sources.  Its arguments are those of the call in [WriteTo]: the writer,
    the data and the metadata (it is not given the header).  Metadata, when
    there is any, is written as a 24-bit big-endian length followed by the
    metadata bytes; the data follow. *)
Definition writePayload (data metadata : list byte) (s : Wr)
  : (Z * option error) * Wr :=
  let '(n, err, s) :=
    if 0 <? len metadata then
      let '(wrote, err, s) := writer_Write w (PutUint24 (len metadata)) s in
      match err with
      | Some e => (0, Some e, s)
      | None =>
          let '(v, err, s) := writer_Write w metadata s in
          match err with
          | Some e => (wrote, Some e, s)
          | None => (wrote + v, None, s)
          end
      end
    else (0, None, s) in
  match err with
  | Some e => (n, Some e, s)
  | None =>
      if 0 <? len data then
        let '(v, err, s) := writer_Write w data s in
        match err with
        | Some e => (n, Some e, s)
        | None => (n + v, None, s)
        end
      else (n, None, s)
  end.

End Writing.

(** [WriteablePayloadFrame]: the embedded [writeableFrame] contributes the
    header. *)
Record WriteablePayloadFrame : Type := mkWriteablePayloadFrame {
  header : FrameHeader;
  metadata : list byte;
  data : list byte
}.

(** [NewWriteablePayloadFrame(id, data, metadata, flag)]. *)
Definition NewWriteablePayloadFrame (id : Z) (data metadata : list byte)
    (flag : FrameFlag) : WriteablePayloadFrame :=
  let flag := if 0 <? len metadata then Z.lor flag FlagMetadata else flag in
  let h := NewFrameHeader id FrameTypePayload flag in
  mkWriteablePayloadFrame h metadata data.

(** [p.Data()]. *)
Definition Data (p : WriteablePayloadFrame) : list byte := data p.

(** [p.Metadata()]: the second component is [ok]; the metadata returned
    when [ok] is false is the nil slice. *)
Definition Metadata (p : WriteablePayloadFrame) : list byte * bool :=
  let ok := Check (Flag (header p)) FlagMetadata in
  if ok then (metadata p, ok) else ([], ok).



(** [p.WriteTo(w)]: the header, then the payload; [n] counts the bytes of
    the parts that were written without error. *)
Definition WriteTo {Wr : Type} (w : io_Writer Wr) (p : WriteablePayloadFrame)
    (s : Wr) : (Z * option error) * Wr :=
  let n := 0 in
  let '(wrote, err, s) := header_WriteTo w (header p) s in
  match err with
  | Some e => (n, Some e, s)
  | None =>
      let n := n + wrote in
      let '(wrote, err, s) := writePayload w (data p) (metadata p) s in
      match err with
      | None => (n + wrote, None, s)
      | Some e => (n, Some e, s)
      end
  end.

(** The bytes a frame puts on the wire: what [WriteTo] leaves in an empty
    buffer. *)
Definition wire (p : WriteablePayloadFrame) : list byte :=
  snd (WriteTo Buffer p []).

(** The payload layout in the specification's words: a 24-bit big-endian
    metadata length and the metadata, when there is metadata, then the
    data. *)
Definition payload_layout (data metadata : list byte) : list byte :=
  (if 0 <? len metadata then PutUint24 (len metadata) ++ metadata else [])
  ++ data.

(** The wire bytes of a frame whose payload is laid out by an arbitrary
    function of the data and the metadata, the two things [WriteTo] passes
    on. *)
Definition wire_with (layout : list byte -> list byte -> list byte)
    (p : WriteablePayloadFrame) : list byte :=
  header_bytes (header p) ++ layout (data p) (metadata p).

(** *** Decoding *)

(** Modelled from the spec: the decoder is not among the sources.  Its
    errors are those of the codec section. *)
Inductive FrameError : Type :=
| Incomplete
| UnknownType
| ReservedBit
| MetadataTooLong
| NotPayload.

(** Modelled from the spec: the six header bytes are read back as a stream
    id whose reserved top bit must be 0, a 6-bit type and 10 bits of flags. *)
Definition decode_header (bs : list byte)
  : FrameError + (FrameHeader * list byte) :=
  match bs with
  | b0 :: b1 :: b2 :: b3 :: b4 :: b5 :: body =>
      let sid := Uint32 b0 b1 b2 b3 in
      let n := Uint16 b4 b5 in
      if Z.testbit sid 31 then inl ReservedBit
      else
        match FrameType_of_code (Z.shiftr (Z.land n 0xFC00) 10) with
        | None => inl UnknownType
        | Some t => inr (mkFrameHeader sid t (Z.land n 0x03FF), body)
        end
  | _ => inl Incomplete
  end.

(** A decoded Payload frame: metadata is optional. *)
Record PayloadFrame : Type := mkPayloadFrame {
  pf_header : FrameHeader;
  pf_metadata : option (list byte);
  pf_data : list byte
}.

(** Modelled from the spec: with the Metadata flag set the body starts with
    a 3-byte big-endian metadata length, then that many metadata bytes, and
    the remaining bytes are the data; without the flag the body is the data.
    Only frames of type Payload are decoded here. *)
Definition decode (bs : list byte) : FrameError + PayloadFrame :=
  match decode_header bs with
  | inl e => inl e
  | inr (h, body) =>
      if negb (FrameType_eqb (Type_ h) FrameTypePayload) then inl NotPayload
      else if Check (Flag h) FlagMetadata then
        match body with
        | l0 :: l1 :: l2 :: rest =>
            let l := Uint24 l0 l1 l2 in
            if len rest <? l then inl MetadataTooLong
            else inr (mkPayloadFrame h
                        (Some (firstn (Z.to_nat l) rest))
                        (skipn (Z.to_nat l) rest))
        | _ => inl Incomplete
        end
      else inr (mkPayloadFrame h None body)
  end.

(** What a writeable frame looks like to a reader: its header, its metadata
    as [Metadata()] reports it, and its data. *)
Definition as_decoded (p : WriteablePayloadFrame) : PayloadFrame :=
  mkPayloadFrame (header p)
    (let '(m, ok) := Metadata p in if ok then Some m else None)
    (Data p).

(** A header is valid when its fields fit the wire format. *)
Definition valid_header (h : FrameHeader) : Prop :=
  0 <= StreamID h < 2 ^ 31 /\ 0 <= Flag h < 2 ^ 10.

(** The fields of a frame are valid when they fit the wire format. *)
Definition valid_fields (id : Z) (metadata : list byte) (flag : FrameFlag)
  : Prop :=
  0 <= id < 2 ^ 31 /\ 0 <= flag < 2 ^ 10 /\ len metadata < 2 ^ 24.

End framing.

(** *** Buffered frames *)

(** Modelled from the spec: the decoded frame variants the transport looks
    into are not among the sources.  A [core.BufferedFrame] is an interface
    value: the constructor is its dynamic type ([*framing.SetupFrame], ...),
    and it carries the header and the fields the dispatcher reads.  Frames of
    every other dynamic type are [OtherFrame]. *)
Inductive BufferedFrame : Type :=
| SetupFrame (h : FrameHeader) (maxLifetime : Z)
| ResumeOKFrame (h : FrameHeader) (lastReceivedClientPosition : Z)
| KeepaliveFrame (h : FrameHeader) (lastReceivedPosition : Z)
| ErrorFrame (h : FrameHeader) (code : Z) (data : list byte)
| OtherFrame (h : FrameHeader) (body : list byte).

(** [frame.Header()]. *)
Definition Header (frame : BufferedFrame) : FrameHeader :=
  match frame with
  | SetupFrame h _ | ResumeOKFrame h _ | KeepaliveFrame h _
  | ErrorFrame h _ _ | OtherFrame h _ => h
  end.

(** Modelled from the spec: [ErrorFrame.ToError] is not among the sources;
    it decodes the frame into an error value made of its code and data. *)
Definition ToError (code : Z) (data : list byte) : error := errFrame code data.

(** Modelled from the spec: [FrameType.String] is not among the sources; the
    names are those of the wire-format section. *)
Definition FrameType_String (t : FrameType) : string :=
  match t with
  | FrameTypeReserved => "Reserved"
  | FrameTypeSetup => "Setup"
  | FrameTypeLease => "Lease"
  | FrameTypeKeepalive => "Keepalive"
  | FrameTypeRequestResponse => "RequestResponse"
  | FrameTypeRequestFNF => "RequestFNF"
  | FrameTypeRequestStream => "RequestStream"
  | FrameTypeRequestChannel => "RequestChannel"
  | FrameTypeRequestN => "RequestN"
  | FrameTypeCancel => "Cancel"
  | FrameTypePayload => "Payload"
  | FrameTypeError => "Error"
  | FrameTypeMetadataPush => "MetadataPush"
  | FrameTypeResume => "Resume"
  | FrameTypeResumeOK => "ResumeOK"
  | FrameTypeExt => "Ext"
  end.

(** ** Package transport *)

Module transport.

(** [EventType], with its [iota] numbering. *)
Inductive EventType : Type :=
| OnSetup
| OnResume
| OnLease
| OnResumeOK
| OnFireAndForget
| OnMetadataPush
| OnRequestResponse
| OnRequestStream
| OnRequestChannel
| OnPayload
| OnRequestN
| OnError
| OnErrorWithZeroStreamID
| OnCancel
| OnKeepalive.

Definition EventType_int (e : EventType) : Z :=
  match e with
  | OnSetup => 0
  | OnResume => 1
  | OnLease => 2
  | OnResumeOK => 3
  | OnFireAndForget => 4
  | OnMetadataPush => 5
  | OnRequestResponse => 6
  | OnRequestStream => 7
  | OnRequestChannel => 8
  | OnPayload => 9
  | OnRequestN => 10
  | OnError => 11
  | OnErrorWithZeroStreamID => 12
  | OnCancel => 13
  | OnKeepalive => 14
  end.

Definition handlerLen : Z := EventType_int OnKeepalive + 1.

Definition EventType_eqb (a b : EventType) : bool :=
  EventType_int a =? EventType_int b.

Section Runtime.

(** Everything outside the transport (the network behind the connection,
    the application behind the handlers, the clock, the log, the context)
    lives in an environment of type [Env]; a call into it is a function on
    [Env]. *)
Context {Env : Type}.

(** [FrameHandler = func(frame core.BufferedFrame) (err error)]. *)
Definition FrameHandler : Type := BufferedFrame -> Env -> option error * Env.

(** [core.WriteableFrame]: [Send] uses its release hook [Done]. *)
Record WriteableFrame : Type := mkWriteableFrame {
  wf_Header : FrameHeader;
  Done : Env -> Env
}.

(** The [Conn] interface. *)
Record Conn : Type := mkConn {
  conn_Read : Env -> (BufferedFrame + error) * Env;
  conn_Write : WriteableFrame -> Env -> option error * Env;
  conn_Flush : Env -> option error * Env;
  conn_SetDeadline : Z -> Env -> option error * Env;
  conn_Close : Env -> option error * Env
}.

(** [context.Context]: [ctx_Err] is [ctx.Err()], which is non-nil exactly
    when [ctx.Done()] is closed. *)
Record context_Context : Type := mkContext {
  ctx_Err : Env -> option error
}.

(** The package-level collaborators: [time.Now] (in nanoseconds),
    [logger.Warnf] with the stream id it is given, and the constant
    [common.DefaultKeepaliveMaxLifetime]. *)
Class Globals : Type := mkGlobals {
  time_Now : Env -> Z;
  logger_Warnf : Z -> Env -> Env;
  DefaultKeepaliveMaxLifetime : Z
}.

Context {G : Globals}.

(** *** Calls and their record *)

(** The calls the transport makes, in the order it makes them. *)
Inductive Event : Type :=
| EvRead
| EvWrite (frame : WriteableFrame)
| EvFlush
| EvSetDeadline (deadline : Z)
| EvClose
| EvHandle (handler : FrameHandler) (frame : BufferedFrame)
| EvDone (frame : WriteableFrame)
| EvWarnf (sid : Z).

Record World : Type := mkWorld {
  env : Env;
  trace : list Event
}.

(** A run returns a value and a world, panics (a nil-pointer dereference or a
    failed type assertion), or has not finished within its fuel. *)
Inductive outcome (A : Type) : Type :=
| Ret (a : A) (w : World)
| Panic
| OutOfFuel.
Arguments Ret {A} _ _.
Arguments Panic {A}.
Arguments OutOfFuel {A}.

Definition M (A : Type) : Type := World -> outcome A.

Definition ret {A : Type} (a : A) : M A := fun w => Ret a w.

Definition bind {A B : Type} (m : M A) (k : A -> M B) : M B :=
  fun w =>
    match m w with
    | Ret a w' => k a w'
    | Panic => Panic
    | OutOfFuel => OutOfFuel
    end.

Definition panic {A : Type} : M A := fun _ => Panic.

(** A call into the environment, recorded. *)
Definition call {A : Type} (ev : Event) (f : Env -> A * Env) : M A :=
  fun w =>
    let '(a, e) := f (env w) in
    Ret a (mkWorld e (trace w ++ [ev])).

(** A read of the environment that leaves no record. *)
Definition peek {A : Type} (f : Env -> A) : M A :=
  fun w => Ret (f (env w)) w.

End Runtime.

Arguments FrameHandler : clear implicits.
Arguments WriteableFrame : clear implicits.
Arguments Conn : clear implicits.
Arguments context_Context : clear implicits.
Arguments Globals : clear implicits.
Arguments Event : clear implicits.
Arguments World : clear implicits.
Arguments M : clear implicits.
Arguments outcome : clear implicits.
Arguments Ret {Env A} _ _.
Arguments Panic {Env A}.
Arguments OutOfFuel {Env A}.

Declare Scope go_scope.
Delimit Scope go_scope with go.
Notation "x <- m ;; k" := (bind m (fun x => k))
  (at level 61, m at next level, right associativity) : go_scope.
Notation "' pat <- m ;; k" := (bind m (fun x => match x with pat => k end))
  (at level 61, pat pattern, m at next level, right associativity) : go_scope.
Notation "m ;;; k" := (bind m (fun _ => k))
  (at level 61, right associativity) : go_scope.

Local Open Scope go_scope.

Section Transport.
Context {Env : Type} {G : Globals Env}.

(** [Transport]: the embedded [sync.RWMutex] guards [handlers] and has no
    state of its own in a sequential run; [once] is whether the [sync.Once]
    has fired; [handlers] is the array indexed by [EventType], [None] where
    the entry is nil. *)
Record Transport : Type := mkTransport {
  conn : option (Conn Env);
  maxLifetime : Z;
  lastRcvPos : Z;
  once : bool;
  handlers : EventType -> option (FrameHandler Env)
}.

Definition set_maxLifetime (p : Transport) (v : Z) : Transport :=
  mkTransport (conn p) v (lastRcvPos p) (once p) (handlers p).

Definition set_lastRcvPos (p : Transport) (v : Z) : Transport :=
  mkTransport (conn p) (maxLifetime p) v (once p) (handlers p).

Definition set_once (p : Transport) (v : bool) : Transport :=
  mkTransport (conn p) (maxLifetime p) (lastRcvPos p) v (handlers p).

(** [NewTransport(c)]; [c] may be the nil interface. *)
Definition NewTransport (c : option (Conn Env)) : Transport :=
  mkTransport c DefaultKeepaliveMaxLifetime 0 false (fun _ => None).

(** [IsNoHandlerError(err)]: [err == errNoHandler]. *)
Definition IsNoHandlerError (err : option error) : bool :=
  match err with
  | Some errNoHandler => true
  | _ => false
  end.

(** [p.Handle(event, handler)]. *)
Definition Handle (p : Transport) (event : EventType)
    (handler : option (FrameHandler Env)) : Transport :=
  mkTransport (conn p) (maxLifetime p) (lastRcvPos p) (once p)
    (fun e => if EventType_eqb e event then handler else handlers p e).

(** [p.Connection()]. *)
Definition Connection (p : Transport) : option (Conn Env) := conn p.

(** [p.SetLifetime(lifetime)]. *)
Definition SetLifetime (p : Transport) (lifetime : Z) : Transport :=
  if lifetime <? 1 then p else set_maxLifetime p lifetime.

(** [p.Send(frame, flush)]; the receiver may be nil.  The body runs first,
    then the deferred function, which sees the named result [err]. *)
Definition Send (p : option Transport) (frame : WriteableFrame Env)
    (flush : bool) : M Env (option error) :=
  err <- match p with
         | None => ret (Some errTransportClosed)
         | Some p =>
             match conn p with
             | None => ret (Some errTransportClosed)
             | Some c =>
                 err <- call (EvWrite frame) (conn_Write c frame) ;;
                 match err with
                 | Some e => ret (Some e)
                 | None =>
                     if negb flush then ret None
                     else call EvFlush (conn_Flush c)
                 end
             end
         end ;;
  match err with
  | None =>
      call (EvDone frame) (fun e => (tt, Done frame e)) ;;;
      ret None
  | Some e => ret (Some e)
  end.

(** [p.Flush()]. *)
Definition Flush (p : option Transport) : M Env (option error) :=
  match p with
  | None => ret (Some errTransportClosed)
  | Some p =>
      match conn p with
      | None => ret (Some errTransportClosed)
      | Some c => call EvFlush (conn_Flush c)
      end
  end.

(** [p.Close()]: [once.Do] runs its function only if the once has not fired,
    and the once has fired when that function returns. *)
Definition Close (p : Transport) : M Env (option error * Transport) :=
  if once p then ret (None, p)
  else
    match conn p with
    | None => panic
    | Some c =>
        err <- call EvClose (conn_Close c) ;;
        ret (err, set_once p true)
    end.

(** [p.getHandler(t)]. *)
Definition getHandler (p : Transport) (t : EventType)
  : option (FrameHandler Env) := handlers p t.

(** The part of [DispatchFrame] after its [switch]: set the deadline, report
    a missing handler, trigger the handler. *)
Definition deliver (p : Transport) (handler : option (FrameHandler Env))
    (frame : BufferedFrame) : M Env (option error * Transport) :=
  match conn p with
  | None => panic
  | Some c =>
      now <- peek time_Now ;;
      let deadline := now + maxLifetime p in
      err <- call (EvSetDeadline deadline) (conn_SetDeadline c deadline) ;;
      match err with
      | Some e => ret (Some e, p)
      | None =>
          match handler with
          | None => ret (Some errNoHandler, p)
          | Some h =>
              err <- call (EvHandle h frame) (h frame) ;;
              match err with
              | Some e =>
                  ret (Some (errWrap e
                         ("handle frame "
                          ++ FrameType_String (Type_ (Header frame))
                          ++ " failed:")), p)
              | None => ret (None, p)
              end
          end
      end
  end.

(** [p.DispatchFrame(ctx, frame)]; the context is not used.  Each case of
    the [switch] either returns or goes on to [deliver] with the handler it
    picked; a type with no case goes on with a nil handler. *)
Definition DispatchFrame (p : Transport) (_ : context_Context Env)
    (frame : BufferedFrame) : M Env (option error * Transport) :=
  let header := Header frame in
  let t := Type_ header in
  let sid := StreamID header in
  match t with
  | FrameTypeSetup =>
      match frame with
      | SetupFrame _ ml =>
          let p := set_maxLifetime p ml in
          deliver p (getHandler p OnSetup) frame
      | _ => panic
      end
  | FrameTypeResume => deliver p (getHandler p OnResume) frame
  | FrameTypeResumeOK =>
      match frame with
      | ResumeOKFrame _ pos =>
          let p := set_lastRcvPos p pos in
          deliver p (getHandler p OnResumeOK) frame
      | _ => panic
      end
  | FrameTypeRequestFNF => deliver p (getHandler p OnFireAndForget) frame
  | FrameTypeMetadataPush =>
      if negb (sid =? 0) then
        call (EvWarnf sid) (fun e => (tt, logger_Warnf sid e)) ;;;
        ret (None, p)
      else deliver p (getHandler p OnMetadataPush) frame
  | FrameTypeRequestResponse => deliver p (getHandler p OnRequestResponse) frame
  | FrameTypeRequestStream => deliver p (getHandler p OnRequestStream) frame
  | FrameTypeRequestChannel => deliver p (getHandler p OnRequestChannel) frame
  | FrameTypePayload => deliver p (getHandler p OnPayload) frame
  | FrameTypeRequestN => deliver p (getHandler p OnRequestN) frame
  | FrameTypeError =>
      if sid =? 0 then
        match frame with
        | ErrorFrame _ code data =>
            let err := ToError code data in
            match getHandler p OnErrorWithZeroStreamID with
            | Some call_ => call (EvHandle call_ frame) (call_ frame) ;;; ret tt
            | None => ret tt
            end ;;;
            ret (Some err, p)
        | _ => panic
        end
      else deliver p (getHandler p OnError) frame
  | FrameTypeCancel => deliver p (getHandler p OnCancel) frame
  | FrameTypeKeepalive =>
      match frame with
      | KeepaliveFrame _ pos =>
          let p := set_lastRcvPos p pos in
          deliver p (getHandler p OnKeepalive) frame
      | _ => panic
      end
  | FrameTypeLease => deliver p (getHandler p OnLease) frame
  | FrameTypeReserved | FrameTypeExt => deliver p None frame
  end.

(** [p.ReadFirst(ctx)]. *)
Definition ReadFirst (p : Transport) (ctx : context_Context Env)
  : M Env (option BufferedFrame * option error * Transport) :=
  done <- peek (ctx_Err ctx) ;;
  '(frame, err) <-
    match done with
    | Some e => ret (None, Some e)
    | None =>
        match conn p with
        | None => panic
        | Some c =>
            r <- call EvRead (conn_Read c) ;;
            match r with
            | inl f => ret (Some f, None)
            | inr e => ret (None, Some (errWrap e "read first frame failed"))
            end
        end
    end ;;
  match err with
  | Some _ => '(_, p) <- Close p ;; ret (frame, err, p)
  | None => ret (frame, err, p)
  end.

(** The [for] loop of [Start]; one unit of fuel per iteration.  The
    [select] takes the [ctx.Done()] case when the context is done and the
    default case otherwise. *)
Fixpoint Start_loop (fuel : nat) (p : Transport) (ctx : context_Context Env)
  : M Env (option error * Transport) :=
  match fuel with
  | O => fun _ => OutOfFuel
  | S fuel =>
      done <- peek (ctx_Err ctx) ;;
      match done with
      | Some e => ret (Some e, p)
      | None =>
          match conn p with
          | None => panic
          | Some c =>
              r <- call EvRead (conn_Read c) ;;
              '(err, p) <- match r with
                           | inl f => DispatchFrame p ctx f
                           | inr e => ret (Some e, p)
                           end ;;
              match err with
              | None => Start_loop fuel p ctx
              | Some io_EOF => ret (None, p)
              | Some e =>
                  ret (Some (errWrap e "dispatch incoming frame failed:"), p)
              end
          end
      end
  end.

(** [p.Start(ctx)]: the loop, then the deferred [p.Close()], whose result is
    dropped. *)
Definition Start (fuel : nat) (p : Transport) (ctx : context_Context Env)
  : M Env (option error * Transport) :=
  '(r, p) <- Start_loop fuel p ctx ;;
  '(_, p) <- Close p ;;
  ret (r, p).

End Transport.

Arguments Transport : clear implicits.

(** *** Reading a record of calls *)

Section Observations.
Context {Env : Type} {G : Globals Env}.

(** The deadlines set, in order. *)
Fixpoint deadlines (tr : list (Event Env)) : list Z :=
  match tr with
  | [] => []
  | EvSetDeadline d :: tr => d :: deadlines tr
  | _ :: tr => deadlines tr
  end.

Definition is_Close (ev : Event Env) : bool :=
  match ev with EvClose => true | _ => false end.

Definition is_Done (ev : Event Env) : bool :=
  match ev with EvDone _ => true | _ => false end.

Definition is_Flush (ev : Event Env) : bool :=
  match ev with EvFlush => true | _ => false end.

Definition is_Handle (ev : Event Env) : bool :=
  match ev with EvHandle _ _ => true | _ => false end.

Definition count (f : Event Env -> bool) (tr : list (Event Env)) : nat :=
  List.length (filter f tr).

(** The world after one recorded call that leaves the environment [e]. *)
Definition record (w : World Env) (ev : Event Env) (e : Env) : World Env :=
  mkWorld e (trace w ++ [ev]).

(** The type assertions of [DispatchFrame] hold for a frame: its dynamic
    type is the one its header announces, wherever the dispatcher asserts
    it. *)
Definition asserts_ok (frame : BufferedFrame) : bool :=
  match Type_ (Header frame) with
  | FrameTypeSetup =>
      match frame with SetupFrame _ _ => true | _ => false end
  | FrameTypeResumeOK =>
      match frame with ResumeOKFrame _ _ => true | _ => false end
  | FrameTypeKeepalive =>
      match frame with KeepaliveFrame _ _ => true | _ => false end
  | FrameTypeError =>
      if StreamID (Header frame) =? 0
      then match frame with ErrorFrame _ _ _ => true | _ => false end
      else true
  | _ => true
  end.

(** The frames [DispatchFrame] returns on without reaching the deadline:
    a MetadataPush with a non-zero stream id, which is dropped, and an Error
    with stream id 0, which is connection-fatal. *)
Definition dropped (frame : BufferedFrame) : bool :=
  match Type_ (Header frame) with
  | FrameTypeMetadataPush => negb (StreamID (Header frame) =? 0)
  | _ => false
  end.

Definition fatal (frame : BufferedFrame) : bool :=
  match Type_ (Header frame) with
  | FrameTypeError => StreamID (Header frame) =? 0
  | _ => false
  end.

(** The event a frame is dispatched under, as the [switch] has it; a type
    without a case has none. *)
Definition event_of (frame : BufferedFrame) : option EventType :=
  match Type_ (Header frame) with
  | FrameTypeSetup => Some OnSetup
  | FrameTypeResume => Some OnResume
  | FrameTypeResumeOK => Some OnResumeOK
  | FrameTypeRequestFNF => Some OnFireAndForget
  | FrameTypeMetadataPush => Some OnMetadataPush
  | FrameTypeRequestResponse => Some OnRequestResponse
  | FrameTypeRequestStream => Some OnRequestStream
  | FrameTypeRequestChannel => Some OnRequestChannel
  | FrameTypePayload => Some OnPayload
  | FrameTypeRequestN => Some OnRequestN
  | FrameTypeError =>
      if StreamID (Header frame) =? 0 then Some OnErrorWithZeroStreamID
      else Some OnError
  | FrameTypeCancel => Some OnCancel
  | FrameTypeKeepalive => Some OnKeepalive
  | FrameTypeLease => Some OnLease
  | FrameTypeReserved | FrameTypeExt => None
  end.

(** The handler registered for a frame, if any. *)
Definition registered (p : Transport Env) (frame : BufferedFrame)
  : option (FrameHandler Env) :=
  match event_of frame with
  | Some ev => handlers p ev
  | None => None
  end.

(** The transport once a frame has gone through the [switch]: a Setup
    frame has set [maxLifetime], a ResumeOK or Keepalive frame has set
    [lastRcvPos]. *)
Definition after_switch (p : Transport Env) (frame : BufferedFrame)
  : Transport Env :=
  match frame with
  | SetupFrame h ml =>
      if FrameType_eqb (Type_ h) FrameTypeSetup
      then set_maxLifetime p ml else p
  | ResumeOKFrame h pos =>
      if FrameType_eqb (Type_ h) FrameTypeResumeOK
      then set_lastRcvPos p pos else p
  | KeepaliveFrame h pos =>
      if FrameType_eqb (Type_ h) FrameTypeKeepalive
      then set_lastRcvPos p pos else p
  | _ => p
  end.

(** What a handler's error becomes when [DispatchFrame] returns it. *)
Definition handler_result (frame : BufferedFrame) (err : option error)
  : option error :=
  match err with
  | Some e =>
      Some (errWrap e
              ("handle frame " ++ FrameType_String (Type_ (Header frame))
               ++ " failed:"))
  | None => None
  end.

(** [n] calls of [p.Close()] in a row, with their results. *)
Fixpoint Close_n (n : nat) (p : Transport Env)
  : M Env (list (option error) * Transport Env) :=
  match n with
  | O => ret ([], p)
  | S n =>
      '(err, p) <- Close p ;;
      '(errs, p) <- Close_n n p ;;
      ret (err :: errs, p)
  end.

(** One iteration of the loop of [Start] after which the loop goes on: the
    context is not done, the read yields a frame, and its dispatch returns
    nil. *)
Inductive iteration (ctx : context_Context Env)
  : Transport Env * World Env -> Transport Env * World Env -> Prop :=
| iteration_intro p w c f e1 p1 w1 :
    ctx_Err ctx (env w) = None ->
    conn p = Some c ->
    conn_Read c (env w) = (inl f, e1) ->
    DispatchFrame p ctx f (record w EvRead e1) = Ret (None, p1) w1 ->
    iteration ctx (p, w) (p1, w1).

Inductive iterations (ctx : context_Context Env)
  : nat -> Transport Env * World Env -> Transport Env * World Env -> Prop :=
| iterations_O s : iterations ctx O s s
| iterations_S n s1 s2 s3 :
    iteration ctx s1 s2 -> iterations ctx n s2 s3 ->
    iterations ctx (S n) s1 s3.

(** The iteration on which the loop of [Start] stops, with what [Start]
    then returns: the context is done; or the read returns [io.EOF]; or the
    read returns another error; or the dispatch returns an error, [io.EOF]
    or another. *)
Inductive stops (ctx : context_Context Env)
  : Transport Env * World Env -> option error
    -> Transport Env * World Env -> Prop :=
| stops_ctx p w e :
    ctx_Err ctx (env w) = Some e ->
    stops ctx (p, w) (Some e) (p, w)
| stops_read_EOF p w c e1 :
    ctx_Err ctx (env w) = None ->
    conn p = Some c ->
    conn_Read c (env w) = (inr io_EOF, e1) ->
    stops ctx (p, w) None (p, record w EvRead e1)
| stops_read_error p w c e e1 :
    ctx_Err ctx (env w) = None ->
    conn p = Some c ->
    conn_Read c (env w) = (inr e, e1) ->
    e <> io_EOF ->
    stops ctx (p, w)
      (Some (errWrap e "dispatch incoming frame failed:"))
      (p, record w EvRead e1)
| stops_dispatch_EOF p w c f e1 p1 w1 :
    ctx_Err ctx (env w) = None ->
    conn p = Some c ->
    conn_Read c (env w) = (inl f, e1) ->
    DispatchFrame p ctx f (record w EvRead e1) = Ret (Some io_EOF, p1) w1 ->
    stops ctx (p, w) None (p1, w1)
| stops_dispatch_error p w c f e e1 p1 w1 :
    ctx_Err ctx (env w) = None ->
    conn p = Some c ->
    conn_Read c (env w) = (inl f, e1) ->
    DispatchFrame p ctx f (record w EvRead e1) = Ret (Some e, p1) w1 ->
    e <> io_EOF ->
    stops ctx (p, w)
      (Some (errWrap e "dispatch incoming frame failed:"))
      (p1, w1).

End Observations.

(** *** Kinds of calls *)

Section Kinds.
Context {Env : Type}.

Definition is_Read (ev : Event Env) : bool :=
  match ev with EvRead => true | _ => false end.

Definition is_Write (ev : Event Env) : bool :=
  match ev with EvWrite _ => true | _ => false end.

Definition is_SetDeadline (ev : Event Env) : bool :=
  match ev with EvSetDeadline _ => true | _ => false end.

(** The calls [DispatchFrame] may make for a frame: nothing; a warning; the
    zero-stream-id error handler; the deadline; the deadline, then a
    handler. *)
Inductive dispatch_calls (frame : BufferedFrame) : list (Event Env) -> Prop :=
| calls_none : dispatch_calls frame []
| calls_warn : dispatch_calls frame [EvWarnf (StreamID (Header frame))]
| calls_fatal h : dispatch_calls frame [EvHandle h frame]
| calls_deadline d : dispatch_calls frame [EvSetDeadline d]
| calls_handled d h : dispatch_calls frame [EvSetDeadline d; EvHandle h frame].

(** What the calls of a receiving loop look like: nothing is written,
    flushed or released, and there are no more deadlines and no more handler
    calls than reads. *)
Definition receiving (tr : list (Event Env)) : Prop :=
  count is_Write tr = O /\ count is_Flush tr = O /\ count is_Done tr = O
  /\ (count is_SetDeadline tr <= count is_Read tr)%nat
  /\ (count is_Handle tr <= count is_Read tr)%nat.

End Kinds.

End transport.

(** ** A scripted environment *)

(** A small concrete environment to run the transport in: a clock, the
    frames and errors the connection will yield on [Read] (then [io.EOF]),
    the errors its other methods return, whether the context is cancelled,
    and the stream ids the handlers have seen. *)
Module demo.

Import transport.

Record Net : Type := mkNet {
  clock : Z;
  inbox : list (BufferedFrame + error);
  deadline_err : option error;
  write_err : option error;
  flush_err : option error;
  cancelled : option error;
  notes : list Z
}.

Definition note (k : Z) (e : Net) : Net :=
  mkNet (clock e) (inbox e) (deadline_err e) (write_err e) (flush_err e)
    (cancelled e) (notes e ++ [k]).

#[export] Instance globals : Globals Net :=
  mkGlobals clock (fun sid e => note (- sid) e) 90000000000.

Definition scripted : Conn Net :=
  mkConn
    (fun e =>
       match inbox e with
       | [] => (inr io_EOF, e)
       | r :: rest =>
           (r, mkNet (clock e) rest (deadline_err e) (write_err e)
                 (flush_err e) (cancelled e) (notes e))
       end)
    (fun _ e => (write_err e, e))
    (fun e => (flush_err e, e))
    (fun _ e => (deadline_err e, e))
    (fun e => (None, e)).

Definition ctx : context_Context Net := mkContext cancelled.

(** A handler that notes the stream id of the frame, and one that fails. *)
Definition noting : FrameHandler Net :=
  fun frame e => (None, note (StreamID (Header frame)) e).

Definition failing : FrameHandler Net :=
  fun _ e => (Some (errIO "boom"), e).

Definition quiet (frames : list (BufferedFrame + error)) : Net :=
  mkNet 1000 frames None None None None [].

(** An environment whose connection refuses deadlines. *)
Definition stalled : Net :=
  mkNet 1000 [] (Some (errIO "deadline")) None None None [].

Definition start (e : Net) : World Net := mkWorld e [].

(** A transport on the scripted connection with no handler registered, and
    one with [noting] registered for every event. *)
Definition bare : Transport Net := NewTransport (Some scripted).

Definition wired : Transport Net :=
  mkTransport (Some scripted) DefaultKeepaliveMaxLifetime 0 false
    (fun _ => Some noting).

Definition payload3 : BufferedFrame :=
  OtherFrame (mkFrameHeader 3 FrameTypePayload 0) [].

Definition push0 : BufferedFrame :=
  OtherFrame (mkFrameHeader 0 FrameTypeMetadataPush FlagMetadata) [].

Definition push1 : BufferedFrame :=
  OtherFrame (mkFrameHeader 1 FrameTypeMetadataPush FlagMetadata) [].

Definition error0 : BufferedFrame :=
  ErrorFrame (mkFrameHeader 0 FrameTypeError 0) 0x0101 [].

Definition error5 : BufferedFrame :=
  ErrorFrame (mkFrameHeader 5 FrameTypeError 0) 0x0201 [].

Definition keepalive : BufferedFrame :=
  KeepaliveFrame (mkFrameHeader 0 FrameTypeKeepalive 0) 42.



Definition outgoing : WriteableFrame Net :=
  mkWriteableFrame (mkFrameHeader 3 FrameTypePayload 0) (note 99).

(** An environment whose connection answers a deadline with [io.EOF]. *)
Definition hangup (frames : list (BufferedFrame + error)) : Net :=
  mkNet 1000 frames (Some io_EOF) None None None [].

(** A transport made without a connection. *)
Definition unconnected : Transport Net := NewTransport None.

(** A context that is never done ([context.Background]). *)
Definition background : context_Context Net := mkContext (fun _ => None).

(** A transport whose handlers all fail. *)
Definition faulty : Transport Net :=
  mkTransport (Some scripted) DefaultKeepaliveMaxLifetime 0 false
    (fun _ => Some failing).

End demo.

(** * Properties *)

(** ** Bytes and integers *)

(** A byte holds its integer modulo 256. *)
Lemma Z_of_byte_of_Z (z : Z) : Z_of_byte (byte_of_Z z) = z mod 256.
Proof.
  unfold Z_of_byte, byte_of_Z.
  assert (Hr : 0 <= z mod 256 < 256) by (apply Z.mod_pos_bound; lia).
  destruct (Byte.of_N (Z.to_N (z mod 256))) as [b|] eqn:E.
  - apply Byte.to_of_N in E. rewrite E. lia.
  - apply Byte.of_N_None_iff in E. lia.
Qed.

Lemma Z_of_byte_range (b : byte) : 0 <= Z_of_byte b < 256.
Proof.
  unfold Z_of_byte. pose proof (Byte.to_N_bounded b). lia.
Qed.

(** The bits of a byte are the low eight bits of the integer it was made
    from. *)
Lemma testbit_byte (z n : Z) :
  Z.testbit (Z_of_byte (byte_of_Z z)) n =
  if (0 <=? n) && (n <? 8) then Z.testbit z n else false.
Proof.
  rewrite Z_of_byte_of_Z.
  destruct (Z.leb_spec 0 n) as [Hn|Hn]; cbn [andb].
  - change 256 with (2 ^ 8). rewrite Z.testbit_mod_pow2 by lia.
    destruct (n <? 8); reflexivity.
  - apply Z.testbit_neg_r; lia.
Qed.

(** An integer below [2 ^ k] has no bit at [k] or above. *)
Lemma testbit_above (v k n : Z) :
  0 <= v < 2 ^ k -> k <= n -> Z.testbit v n = false.
Proof.
  intros Hv Hn.
  destruct (Z.eq_dec v 0) as [->|Hz]; [apply Z.bits_0|].
  apply Z.bits_above_log2; [lia|].
  assert (Z.log2 v < k); [|lia].
  apply Z.log2_lt_pow2; lia.
Qed.

(** Bit-level equalities between big-endian encodings and the integers they
    encode: compare bit by bit, splitting on the byte a bit falls in. *)
Ltac split_range :=
  repeat match goal with
  | |- context [Z.leb ?a ?b] => destruct (Z.leb_spec a b)
  | |- context [Z.ltb ?a ?b] => destruct (Z.ltb_spec a b)
  end; simpl; try lia.

Ltac bits :=
  apply Z.bits_inj'; intros n Hn;
  repeat first
    [ rewrite Z.lor_spec | rewrite Z.land_spec
    | rewrite Z.shiftl_spec by lia | rewrite testbit_byte ];
  split_range;
  repeat rewrite Z.shiftr_spec by lia;
  rewrite ?orb_false_r, ?orb_false_l, ?andb_false_r;
  try (f_equal; lia).

(** Big-endian integers read back as written. *)
Lemma Uint32_PutUint32 (v : Z) :
  0 <= v < 2 ^ 32 ->
  Uint32 (byte_of_Z (Z.shiftr v 24)) (byte_of_Z (Z.shiftr v 16))
         (byte_of_Z (Z.shiftr v 8)) (byte_of_Z v) = v.
Proof.
  intros Hv. unfold Uint32. bits.
  symmetry. apply (testbit_above v 32); lia.
Qed.

Lemma Uint16_PutUint16 (v : Z) :
  0 <= v < 2 ^ 16 ->
  Uint16 (byte_of_Z (Z.shiftr v 8)) (byte_of_Z v) = v.
Proof.
  intros Hv. unfold Uint16. bits.
  symmetry. apply (testbit_above v 16); lia.
Qed.


(** The type, shifted by ten bits, and the ten flag bits do not overlap. *)
Lemma type_flag_disjoint (c fl : Z) :
  0 <= fl < 2 ^ 10 -> Z.land (Z.shiftl c 10) fl = 0.
Proof.
  intros Hf. apply Z.bits_inj'; intros n Hn.
  rewrite Z.land_spec, Z.bits_0.
  destruct (Z.ltb_spec n 10).
  - rewrite Z.shiftl_spec_low by lia. reflexivity.
  - rewrite (testbit_above fl 10 n) by lia. apply andb_false_r.
Qed.

Lemma type_flag_sum (c fl : Z) :
  0 <= fl < 2 ^ 10 -> Z.lor (Z.shiftl c 10) fl = c * 2 ^ 10 + fl.
Proof.
  intros Hf.
  rewrite <- Z.lxor_lor by (apply type_flag_disjoint; assumption).
  rewrite <- Z.add_nocarry_lxor by (apply type_flag_disjoint; assumption).
  rewrite Z.shiftl_mul_pow2 by lia. reflexivity.
Qed.

Lemma type_of_word (c fl : Z) :
  0 <= c < 2 ^ 6 -> 0 <= fl < 2 ^ 10 ->
  Z.shiftr (Z.land (Z.lor (Z.shiftl c 10) fl) 0xFC00) 10 = c.
Proof.
  intros Hc Hf. apply Z.bits_inj'; intros n Hn.
  rewrite Z.shiftr_spec, Z.land_spec, Z.lor_spec, Z.shiftl_spec by lia.
  replace (n + 10 - 10) with n by lia.
  rewrite (testbit_above fl 10 (n + 10)) by lia.
  rewrite orb_false_r.
  destruct (Z.ltb_spec n 6).
  - replace (Z.testbit 0xFC00 (n + 10)) with true; [apply andb_true_r|].
    assert (n = 0 \/ n = 1 \/ n = 2 \/ n = 3 \/ n = 4 \/ n = 5) as Hcase by lia.
    destruct Hcase as [->|[->|[->|[->|[->| ->]]]]]; reflexivity.
  - rewrite (testbit_above c 6 n) by lia. reflexivity.
Qed.

Lemma flag_of_word (c fl : Z) :
  0 <= fl < 2 ^ 10 ->
  Z.land (Z.lor (Z.shiftl c 10) fl) 0x03FF = fl.
Proof.
  intros Hf. change 0x03FF with (Z.ones 10).
  rewrite Z.land_ones by lia.
  rewrite type_flag_sum by assumption.
  rewrite Z.add_comm, Z.mod_add by lia.
  apply Z.mod_small; assumption.
Qed.

Lemma FrameType_code_range (t : FrameType) : 0 <= FrameType_code t < 2 ^ 6.
Proof. destruct t; cbn; lia. Qed.

Lemma FrameType_of_code_code (t : FrameType) :
  FrameType_of_code (FrameType_code t) = Some t.
Proof. destruct t; reflexivity. Qed.

(** A valid header is read back from its six bytes. *)
Lemma decode_header_bytes (h : FrameHeader) (body : list byte) :
  framing.valid_header h ->
  framing.decode_header (header_bytes h ++ body) = inr (h, body).
Proof.
  intros [Hs Hf]. destruct h as [sid t fl]; cbn [StreamID Flag Type_] in *.
  pose proof (FrameType_code_range t) as Hc.
  unfold header_bytes, PutUint32, PutUint16; cbn [StreamID Flag Type_ app].
  unfold framing.decode_header.
  rewrite Uint32_PutUint32 by lia.
  rewrite Uint16_PutUint16
    by (rewrite type_flag_sum by assumption; lia).
  rewrite (testbit_above sid 31 31) by lia.
  rewrite type_of_word, flag_of_word by assumption.
  rewrite FrameType_of_code_code. reflexivity.
Qed.



Lemma len_nil_iff (bs : list byte) : (0 <? len bs) = false -> bs = [].
Proof.
  unfold len. destruct bs; [reflexivity|].
  intros H. apply Z.ltb_ge in H. cbn [List.length] in H. lia.
Qed.

Lemma len_app (a b : list byte) : len (a ++ b) = len a + len b.
Proof. unfold len. rewrite length_app. lia. Qed.


(** [WriteTo] into a buffer writes the header bytes followed by the payload
    in the layout of the specification. *)
Lemma wire_eq (p : framing.WriteablePayloadFrame) :
  framing.wire p =
  header_bytes (framing.header p)
  ++ framing.payload_layout (framing.data p) (framing.metadata p).
Proof.
  unfold framing.wire, framing.WriteTo, framing.header_WriteTo,
    framing.writePayload, framing.payload_layout, Buffer.
  cbn [writer_Write app snd].
  destruct (0 <? len (framing.metadata p)) eqn:Em;
    destruct (0 <? len (framing.data p)) eqn:Ed; cbn [snd];
    try (apply len_nil_iff in Ed; rewrite Ed);
    rewrite ?app_nil_r, <- ?app_assoc; reflexivity.
Qed.


Lemma decode_payload_plain (h : FrameHeader) (d : list byte) :
  framing.valid_header h -> Type_ h = FrameTypePayload ->
  Check (Flag h) FlagMetadata = false ->
  framing.decode (header_bytes h ++ d) = inr (framing.mkPayloadFrame h None d).
Proof.
  intros Hv Ht Hc. unfold framing.decode.
  rewrite decode_header_bytes by assumption.
  rewrite Ht, Hc. reflexivity.
Qed.







(** No layout of the payload that is a function of the data and the
    metadata alone makes every valid frame round-trip. *)
Lemma no_layout_roundtrips (layout : list byte -> list byte -> list byte) :
  ~ (forall id data metadata flag,
       framing.valid_fields id metadata flag ->
       framing.decode
         (framing.wire_with layout
            (framing.NewWriteablePayloadFrame id data metadata flag))
       = inr (framing.as_decoded
                (framing.NewWriteablePayloadFrame id data metadata flag))).
Proof.
  intros H.
  assert (Hv0 : framing.valid_fields 1 [] 0)
    by (unfold framing.valid_fields, len; cbn; lia).
  assert (Hv1 : framing.valid_fields 1 [] FlagMetadata)
    by (unfold framing.valid_fields, FlagMetadata, len; cbn; lia).
  pose proof (H 1 [x00; x00; x01; x41] [] 0 Hv0) as H0.
  pose proof (H 1 [x00; x00; x01; x41] [] FlagMetadata Hv1) as H1.
  unfold framing.wire_with in H0, H1.
  cbn [framing.NewWriteablePayloadFrame framing.header framing.data
       framing.metadata len List.length Z.of_nat Z.ltb Z.compare] in H0, H1.
  rewrite decode_payload_plain in H0;
    [|split; cbn; lia|reflexivity|reflexivity].
  injection H0 as E. unfold framing.Data in E. cbn [framing.data] in E.
  rewrite E in H1. vm_compute in H1. discriminate H1.
Qed.

(** ** The transport *)

Import transport.

Section TransportFacts.
Context {Env : Type} {G : Globals Env}.

Implicit Types (p : Transport Env) (w : World Env) (frame : BufferedFrame)
  (c : Conn Env) (ctx : context_Context Env).

(** [deliver], call by call. *)
Lemma deliver_eq p c handler frame w :
  conn p = Some c ->
  deliver p handler frame w =
  let d := time_Now (env w) + maxLifetime p in
  let '(err, e1) := conn_SetDeadline c d (env w) in
  let w1 := record w (EvSetDeadline d) e1 in
  match err, handler with
  | Some e, _ => Ret (Some e, p) w1
  | None, None => Ret (Some errNoHandler, p) w1
  | None, Some h =>
      let '(err, e2) := h frame e1 in
      Ret (handler_result frame err, p) (record w1 (EvHandle h frame) e2)
  end.
Proof.
  intros Hc. unfold deliver, bind, call, peek, ret, record. rewrite Hc.
  cbn [env trace].
  destruct (conn_SetDeadline c _ (env w)) as [[e|] e1]; [reflexivity|].
  destruct handler as [h|]; [|reflexivity].
  cbn [env trace]. destruct (h frame e1) as [[e|] e2]; reflexivity.
Qed.

Lemma deliver_returns p c handler frame w :
  conn p = Some c ->
  exists r w', deliver p handler frame w = Ret (r, p) w'
    /\ exists rest,
         trace w' =
         trace w ++ EvSetDeadline (time_Now (env w) + maxLifetime p) :: rest
         /\ deadlines rest = [].
Proof.
  intros Hc. rewrite (deliver_eq p c) by assumption. cbv zeta.
  destruct (conn_SetDeadline c _ (env w)) as [[e|] e1].
  - eexists _, _. split; [reflexivity|]. exists []. split; reflexivity.
  - destruct handler as [h|].
    + destruct (h frame e1) as [r e2].
      eexists _, _. split; [reflexivity|]. exists [EvHandle h frame].
      cbn [record trace]. rewrite <- app_assoc. split; reflexivity.
    + eexists _, _. split; [reflexivity|]. exists []. split; reflexivity.
Qed.

(** After its [switch], [DispatchFrame] goes on to [deliver] for every frame
    that passes its type assertions and is neither dropped nor fatal. *)
Lemma DispatchFrame_delivers p ctx frame :
  asserts_ok frame = true -> dropped frame = false -> fatal frame = false ->
  DispatchFrame p ctx frame =
  deliver (after_switch p frame) (registered p frame) frame.
Proof.
  unfold asserts_ok, dropped, fatal, DispatchFrame, registered, event_of,
    getHandler, after_switch.
  destruct frame as [h ml|h pos|h pos|h code data|h body];
    cbn [Header]; destruct h as [sid t fl]; cbn [Type_ StreamID];
    destruct t; cbn [FrameType_eqb FrameType_code Z.eqb];
    intros Ha Hd Hf; try discriminate; try reflexivity;
    try (destruct (sid =? 0); try discriminate; reflexivity).
Qed.

Lemma deliver_keeps p handler frame w r p' w' :
  deliver p handler frame w = Ret (r, p') w' -> p' = p.
Proof.
  unfold deliver, bind, call, peek, ret.
  destruct (conn p) as [c|]; [|discriminate].
  cbn [env trace].
  destruct (conn_SetDeadline c _ (env w)) as [[e|] e1].
  - intros H; inversion H; reflexivity.
  - destruct handler as [h|].
    + cbn [env trace]. destruct (h frame e1) as [[e|] e2];
        intros H; inversion H; reflexivity.
    + intros H; inversion H; reflexivity.
Qed.

(** [DispatchFrame] writes only [maxLifetime] and [lastRcvPos]. *)
Lemma DispatchFrame_keeps p ctx frame w r p' w' :
  DispatchFrame p ctx frame w = Ret (r, p') w' ->
  conn p' = conn p /\ once p' = once p /\ handlers p' = handlers p.
Proof.
  unfold DispatchFrame.
  destruct (Type_ (Header frame)); intros H;
    try solve [apply deliver_keeps in H; subst; cbn; auto];
    try solve [destruct frame; try discriminate;
               apply deliver_keeps in H; subst; cbn; auto].
  - destruct (StreamID (Header frame) =? 0).
    + destruct frame; try discriminate.
      unfold bind, call, ret in H.
      destruct (getHandler p OnErrorWithZeroStreamID) as [hz|].
      * cbn [env trace] in H. destruct (hz _ (env w)); inversion H; subst; auto.
      * inversion H; subst; auto.
    + apply deliver_keeps in H; subst; cbn; auto.
  - destruct (negb (StreamID (Header frame) =? 0)).
    + unfold bind, call, ret in H. inversion H; subst; auto.
    + apply deliver_keeps in H; subst; cbn; auto.
Qed.

Lemma iteration_keeps ctx p w p1 w1 :
  iteration ctx (p, w) (p1, w1) ->
  conn p1 = conn p /\ once p1 = once p /\ handlers p1 = handlers p.
Proof.
  intros H; inversion H; subst. eapply DispatchFrame_keeps; eassumption.
Qed.

Lemma iterations_keep ctx n s s' :
  iterations ctx n s s' ->
  conn (fst s') = conn (fst s) /\ once (fst s') = once (fst s)
  /\ handlers (fst s') = handlers (fst s).
Proof.
  induction 1 as [s|n [p1 w1] [p2 w2] s3 Hstep Hrest IH]; [auto|].
  apply iteration_keeps in Hstep. cbn [fst] in *.
  destruct Hstep as (E1 & E2 & E3). destruct IH as (I1 & I2 & I3).
  repeat split; congruence.
Qed.

Lemma stops_keeps ctx p w r p1 w1 :
  stops ctx (p, w) r (p1, w1) ->
  conn p1 = conn p /\ once p1 = once p /\ handlers p1 = handlers p.
Proof.
  intros H; inversion H; subst; auto;
    eapply DispatchFrame_keeps; eassumption.
Qed.

(** One iteration that goes on leaves the rest of the loop to run. *)
Lemma Start_loop_iteration ctx fuel p w p1 w1 :
  iteration ctx (p, w) (p1, w1) ->
  Start_loop (S fuel) p ctx w = Start_loop fuel p1 ctx w1.
Proof.
  intros H; inversion H as [? ? c f e1 ? ? Hctx Hc Hread Hd]; subst.
  cbn [Start_loop]. unfold bind at 1, peek at 1. rewrite Hctx, Hc.
  unfold bind at 1, call at 1. rewrite Hread.
  unfold record in Hd. unfold bind at 1. rewrite Hd. reflexivity.
Qed.

(** The iteration on which the loop stops. *)
Lemma Start_loop_stops ctx fuel p w r p1 w1 :
  stops ctx (p, w) r (p1, w1) ->
  Start_loop (S fuel) p ctx w = Ret (r, p1) w1.
Proof.
  intros H; inversion H; subst; cbn [Start_loop];
    unfold bind at 1, peek at 1;
    repeat match goal with
    | E : ctx_Err _ _ = _ |- _ => rewrite E; clear E
    | E : conn _ = _ |- _ => rewrite E; clear E
    end;
    try reflexivity;
    unfold bind at 1, call at 1;
    match goal with E : conn_Read _ _ = _ |- _ => rewrite E end;
    try match goal with
    | E : DispatchFrame _ _ _ _ = _ |- _ =>
        unfold record in E; unfold bind at 1; rewrite E
    end;
    try reflexivity.
  - unfold bind, ret. destruct e; try reflexivity. congruence.
  - unfold ret. destruct e; try reflexivity. congruence.
Qed.

Lemma Start_loop_run ctx n s sn r sl :
  iterations ctx n s sn -> stops ctx sn r sl ->
  forall fuel, (n < fuel)%nat ->
  Start_loop fuel (fst s) ctx (snd s) = Ret (r, fst sl) (snd sl).
Proof.
  induction 1 as [[p w]|n [p1 w1] [p2 w2] s3 Hstep Hrest IH];
    intros Hstop fuel Hfuel.
  - destruct fuel as [|fuel]; [lia|]. destruct sl as [pl wl].
    apply Start_loop_stops. exact Hstop.
  - destruct fuel as [|fuel]; [lia|]. cbn [fst snd].
    rewrite (Start_loop_iteration ctx fuel p1 w1 p2 w2 Hstep).
    apply (IH Hstop). lia.
Qed.

(** [Close], call by call. *)
Lemma Close_eq p w :
  Close p w =
  if once p then Ret (None, p) w
  else
    match conn p with
    | None => Panic
    | Some c =>
        let '(err, e) := conn_Close c (env w) in
        Ret (err, set_once p true) (record w EvClose e)
    end.
Proof.
  unfold Close. destruct (once p); [reflexivity|].
  destruct (conn p) as [c|]; [|reflexivity].
  unfold bind, call, ret, record. destruct (conn_Close c (env w)). reflexivity.
Qed.

(** A run of [Start]: the iterations that go on, the one that stops, then
    the deferred [Close]. *)
Lemma Start_run ctx n p w pn wn r pl wl c fuel :
  iterations ctx n (p, w) (pn, wn) -> stops ctx (pn, wn) r (pl, wl) ->
  conn p = Some c -> (n < fuel)%nat ->
  Start fuel p ctx w =
  if once p then Ret (r, pl) wl
  else Ret (r, set_once pl true)
           (record wl EvClose (snd (conn_Close c (env wl)))).
Proof.
  intros Hit Hstop Hc Hfuel. unfold Start. unfold bind at 1.
  pose proof (Start_loop_run ctx n (p, w) (pn, wn) r (pl, wl) Hit Hstop
                fuel Hfuel) as Hloop.
  cbn [fst snd] in Hloop. rewrite Hloop.
  apply iterations_keep in Hit. apply stops_keeps in Hstop.
  cbn [fst] in Hit. destruct Hit as (Hc1 & Ho1 & _).
  destruct Hstop as (Hc2 & Ho2 & _).
  unfold bind. rewrite Close_eq. rewrite Ho2, Ho1, Hc2, Hc1, Hc.
  destruct (once p); [reflexivity|].
  destruct (conn_Close c (env wl)); reflexivity.
Qed.

Lemma deliver_handled p c h frame w e1 :
  conn p = Some c ->
  conn_SetDeadline c (time_Now (env w) + maxLifetime p) (env w) = (None, e1) ->
  deliver p (Some h) frame w =
  Ret (handler_result frame (fst (h frame e1)), p)
      (record (record w (EvSetDeadline (time_Now (env w) + maxLifetime p)) e1)
              (EvHandle h frame) (snd (h frame e1))).
Proof.
  intros Hc Hd. rewrite (deliver_eq p c) by assumption. cbv zeta.
  rewrite Hd. destruct (h frame e1); reflexivity.
Qed.

Lemma deliver_unhandled p c frame w e1 :
  conn p = Some c ->
  conn_SetDeadline c (time_Now (env w) + maxLifetime p) (env w) = (None, e1) ->
  deliver p None frame w =
  Ret (Some errNoHandler, p)
      (record w (EvSetDeadline (time_Now (env w) + maxLifetime p)) e1).
Proof.
  intros Hc Hd. rewrite (deliver_eq p c) by assumption. cbv zeta.
  rewrite Hd. reflexivity.
Qed.

Lemma after_switch_conn p frame : conn (after_switch p frame) = conn p.
Proof.
  unfold after_switch.
  destruct frame as [h ml|h pos|h pos|h code data|h body]; try reflexivity.
  - destruct (FrameType_eqb (Type_ h) FrameTypeSetup); reflexivity.
  - destruct (FrameType_eqb (Type_ h) FrameTypeResumeOK); reflexivity.
  - destruct (FrameType_eqb (Type_ h) FrameTypeKeepalive); reflexivity.
Qed.

Lemma Start_loop_inv ctx fuel : forall p w r p' w',
  Start_loop fuel p ctx w = Ret (r, p') w' ->
  exists n pn wn,
    iterations ctx n (p, w) (pn, wn) /\ stops ctx (pn, wn) r (p', w').
Proof.
  induction fuel as [|fuel IH]; intros p w r p' w' H; [discriminate|].
  cbn [Start_loop] in H. unfold bind at 1, peek at 1 in H.
  destruct (ctx_Err ctx (env w)) as [e|] eqn:Hctx.
  { inversion H; subst. exists O, p', w'. split; constructor. exact Hctx. }
  destruct (conn p) as [c|] eqn:Hc; [|discriminate].
  unfold bind at 1, call at 1 in H.
  destruct (conn_Read c (env w)) as [[f|e] e1] eqn:Hread.
  - unfold bind at 1 in H.
    destruct (DispatchFrame p ctx f _) as [[err p1] w1| |] eqn:Hd;
      try discriminate.
    destruct err as [e|].
    + assert (He : e = io_EOF \/ e <> io_EOF)
        by (destruct e; auto; right; discriminate).
      destruct He as [->|He].
      * inversion H; subst. exists O, p, w. split; [constructor|].
        eapply stops_dispatch_EOF; eassumption.
      * assert (H' : Ret (Some (errWrap e "dispatch incoming frame failed:"),
                          p1) w1 = Ret (r, p') w')
          by (destruct e; try exact H; congruence).
        inversion H'; subst. exists O, p, w. split; [constructor|].
        eapply stops_dispatch_error; eassumption.
    + apply IH in H. destruct H as (n & pn & wn & Hit & Hstop).
      exists (S n), pn, wn. split; [|exact Hstop].
      eapply iterations_S; [|exact Hit].
      eapply iteration_intro; eassumption.
  - unfold bind, ret in H.
    assert (He : e = io_EOF \/ e <> io_EOF)
      by (destruct e; auto; right; discriminate).
    destruct He as [->|He].
    + inversion H; subst. exists O, p', w. split; [constructor|].
      eapply stops_read_EOF; eassumption.
    + assert (H' : Ret (Some (errWrap e "dispatch incoming frame failed:"),
                        p) (mkWorld e1 (trace w ++ [EvRead]))
                   = Ret (r, p') w')
        by (destruct e; try exact H; congruence).
      inversion H'; subst. exists O, p', w. split; [constructor|].
      eapply stops_read_error; eassumption.
Qed.

Lemma Start_closed ctx fuel p w r p' w' :
  Start fuel p ctx w = Ret (r, p') w' -> once p' = true.
Proof.
  unfold Start. unfold bind at 1.
  destruct (Start_loop fuel p ctx w) as [[r1 p1] w1| |]; try discriminate.
  unfold bind. rewrite Close_eq.
  destruct (once p1) eqn:Ho.
  - intros H; inversion H; subst. exact Ho.
  - destruct (conn p1) as [c|]; [|discriminate].
    destruct (conn_Close c (env w1)). intros H; inversion H; subst.
    reflexivity.
Qed.





(** C3.  [Start] loops reading and dispatching frames: an iteration whose
    read yields a frame and whose dispatch returns nil is followed by the
    next one.  It stops when the context is done, returning the context's
    error; when a read returns [io.EOF], returning nil; when a read or a
    dispatch returns another error, returning it wrapped.  Every return of
    [Start] comes about in one of these ways, and with enough fuel for the
    iterations such a run returns; on return the transport is closed: the
    once has fired, and if it had not fired before, [conn.Close] is the last
    call made. *)
Theorem Start_returns ctx p w fuel :
  (forall r p' w',
     Start fuel p ctx w = Ret (r, p') w' ->
     once p' = true
     /\ exists n pn wn pl wl err,
          iterations ctx n (p, w) (pn, wn) /\ stops ctx (pn, wn) r (pl, wl)
          /\ Close pl wl = Ret (err, p') w')
  /\ (forall n pn wn r pl wl c,
       iterations ctx n (p, w) (pn, wn) -> stops ctx (pn, wn) r (pl, wl) ->
       conn p = Some c -> (n < fuel)%nat ->
       exists p' w',
         Start fuel p ctx w = Ret (r, p') w'
         /\ once p' = true
         /\ (once p = false ->
             p' = set_once pl true
             /\ w' = record wl EvClose (snd (conn_Close c (env wl))))
         /\ (once p = true -> p' = pl /\ w' = wl)).
Proof.
  split.
  - intros r p' w' H. split; [eapply Start_closed; exact H|].
    unfold Start in H. unfold bind at 1 in H.
    destruct (Start_loop fuel p ctx w) as [[r1 p1] w1| |] eqn:Hloop;
      try discriminate.
    apply Start_loop_inv in Hloop.
    destruct Hloop as (n & pn & wn & Hit & Hstop).
    unfold bind in H.
    destruct (Close p1 w1) as [[err p2] w2| |] eqn:Hclose; try discriminate.
    inversion H; subst. exists n, pn, wn, p1, w1, err.
    repeat split; assumption.
  - intros n pn wn r pl wl c Hit Hstop Hc Hfuel.
    rewrite (Start_run ctx n p w pn wn r pl wl c fuel Hit Hstop Hc Hfuel).
    apply iterations_keep in Hit. apply stops_keeps in Hstop.
    cbn [fst] in Hit. destruct Hit as (_ & Ho1 & _).
    destruct Hstop as (_ & Ho2 & _).
    destruct (once p) eqn:Ho.
    + exists pl, wl. repeat split; try congruence.
    + eexists _, _. repeat split; try discriminate.
Qed.

(** C4.  For an Error frame with stream id 0, [DispatchFrame] decodes the
    frame into an error, calls the [OnErrorWithZeroStreamID] handler with the
    frame when one is registered (and makes no other call), and returns the
    decoded error whatever the handler returned; [Start] then stops with
    that error and closes the transport.  An Error frame with a non-zero
    stream id goes the common way with the [OnError] handler: once the
    deadline is set, that handler is called with the frame. *)
Theorem DispatchFrame_error p ctx frame w :
  Type_ (Header frame) = FrameTypeError ->
  (forall h code data,
     frame = ErrorFrame h code data -> StreamID h = 0 ->
     DispatchFrame p ctx frame w =
     Ret (Some (ToError code data), p)
         (match handlers p OnErrorWithZeroStreamID with
          | Some call_ =>
              record w (EvHandle call_ frame) (snd (call_ frame (env w)))
          | None => w
          end)
     /\ forall c w0 e0 fuel,
          ctx_Err ctx (env w0) = None ->
          conn p = Some c ->
          conn_Read c (env w0) = (inl frame, e0) ->
          w = record w0 EvRead e0 ->
          exists p' w',
            Start (S fuel) p ctx w0 =
            Ret (Some (errWrap (ToError code data)
                         "dispatch incoming frame failed:"), p') w'
            /\ once p' = true)
  /\ (StreamID (Header frame) <> 0 ->
      DispatchFrame p ctx frame w = deliver p (handlers p OnError) frame w
      /\ forall c e1 h,
           conn p = Some c ->
           conn_SetDeadline c (time_Now (env w) + maxLifetime p) (env w)
           = (None, e1) ->
           handlers p OnError = Some h ->
           DispatchFrame p ctx frame w =
           Ret (handler_result frame (fst (h frame e1)), p)
               (record
                  (record w (EvSetDeadline (time_Now (env w) + maxLifetime p))
                     e1)
                  (EvHandle h frame) (snd (h frame e1)))).
Proof.
  intros Ht. split.
  - intros h code data -> Hsid. cbn [Header] in Ht.
    assert (E : DispatchFrame p ctx (ErrorFrame h code data) w =
                Ret (Some (ToError code data), p)
                  (match handlers p OnErrorWithZeroStreamID with
                   | Some call_ =>
                       record w (EvHandle call_ (ErrorFrame h code data))
                         (snd (call_ (ErrorFrame h code data) (env w)))
                   | None => w
                   end)).
    { unfold DispatchFrame. cbn [Header]. rewrite Ht, Hsid. cbn [Z.eqb].
      unfold getHandler, bind, call, ret, record.
      destruct (handlers p OnErrorWithZeroStreamID) as [hz|]; [|reflexivity].
      destruct (hz _ (env w)); reflexivity. }
    split; [exact E|].
    intros c w0 e0 fuel Hctx Hc Hread ->.
    match type of E with _ = Ret _ ?w1 => set (wl := w1) in * end.
    assert (Hstop : stops ctx (p, w0)
              (Some (errWrap (ToError code data)
                       "dispatch incoming frame failed:"))
              (p, wl)).
    { eapply stops_dispatch_error; try eassumption. discriminate. }
    rewrite (Start_run ctx 0 p w0 p w0 _ _ _ c (S fuel)
               (iterations_O ctx (p, w0)) Hstop Hc) by lia.
    destruct (once p) eqn:Ho.
    + eexists _, _. split; [reflexivity|exact Ho].
    + eexists _, _. split; reflexivity.
  - intros Hsid.
    assert (E : DispatchFrame p ctx frame w
                = deliver p (handlers p OnError) frame w).
    { unfold DispatchFrame. rewrite Ht.
      apply Z.eqb_neq in Hsid. rewrite Hsid. reflexivity. }
    split; [exact E|].
    intros c e1 h Hc Hd Hh. rewrite E, Hh.
    apply (deliver_handled p c); assumption.
Qed.

(** C5 (as amended).  For every frame that [DispatchFrame] does not return
    on early (every frame but a MetadataPush with non-zero stream id, which
    is dropped, and an Error with stream id 0, which yields the decoded
    error) and for which no handler is registered, if setting the deadline
    succeeds then [DispatchFrame] returns the NoHandler error, which
    [IsNoHandlerError] recognises; the loop of [Start] does not go on after
    it: [Start] returns it wrapped and closes the transport. *)
Theorem DispatchFrame_no_handler p c ctx frame w e1 :
  conn p = Some c ->
  asserts_ok frame = true -> dropped frame = false -> fatal frame = false ->
  registered p frame = None ->
  conn_SetDeadline c
    (time_Now (env w) + maxLifetime (after_switch p frame)) (env w)
  = (None, e1) ->
  let w1 :=
    record w
      (EvSetDeadline (time_Now (env w) + maxLifetime (after_switch p frame)))
      e1 in
  DispatchFrame p ctx frame w = Ret (Some errNoHandler, after_switch p frame) w1
  /\ IsNoHandlerError (Some errNoHandler) = true
  /\ forall w0 e0 fuel,
       ctx_Err ctx (env w0) = None ->
       conn_Read c (env w0) = (inl frame, e0) ->
       w = record w0 EvRead e0 ->
       exists p' w',
         Start (S fuel) p ctx w0 =
         Ret (Some (errWrap errNoHandler "dispatch incoming frame failed:"),
              p') w'
         /\ once p' = true.
Proof.
  intros Hc Ha Hd Hf Hr Hdl w1.
  assert (E : DispatchFrame p ctx frame w
              = Ret (Some errNoHandler, after_switch p frame) w1).
  { rewrite (DispatchFrame_delivers p ctx frame Ha Hd Hf), Hr.
    apply (deliver_unhandled (after_switch p frame) c).
    - rewrite after_switch_conn. exact Hc.
    - exact Hdl. }
  split; [exact E|]. split; [reflexivity|].
  intros w0 e0 fuel Hctx Hread ->.
  assert (Hstop : stops ctx (p, w0)
            (Some (errWrap errNoHandler "dispatch incoming frame failed:"))
            (after_switch p frame, w1)).
  { eapply stops_dispatch_error; try eassumption. discriminate. }
  rewrite (Start_run ctx 0 p w0 p w0 _ _ _ c (S fuel)
             (iterations_O ctx (p, w0)) Hstop Hc) by lia.
  destruct (once p) eqn:Ho.
  - eexists _, _. split; [reflexivity|].
    apply stops_keeps in Hstop. destruct Hstop as (_ & -> & _). exact Ho.
  - eexists _, _. split; reflexivity.
Qed.

(** C6.  For a MetadataPush frame with a non-zero stream id,
    [DispatchFrame] logs a warning, calls neither a handler nor the
    connection, and returns nil, so that the loop of [Start] goes on with the
    next frame.  A MetadataPush frame with stream id 0 goes the common way
    with the [OnMetadataPush] handler: once the deadline is set, that
    handler is called with the frame. *)
Theorem DispatchFrame_metadata_push p ctx frame w :
  Type_ (Header frame) = FrameTypeMetadataPush ->
  (StreamID (Header frame) <> 0 ->
     DispatchFrame p ctx frame w =
     Ret (None, p)
         (record w (EvWarnf (StreamID (Header frame)))
            (logger_Warnf (StreamID (Header frame)) (env w)))
     /\ forall c w0 e0 fuel,
          ctx_Err ctx (env w0) = None ->
          conn p = Some c ->
          conn_Read c (env w0) = (inl frame, e0) ->
          w = record w0 EvRead e0 ->
          Start_loop (S fuel) p ctx w0 =
          Start_loop fuel p ctx
            (record w (EvWarnf (StreamID (Header frame)))
               (logger_Warnf (StreamID (Header frame)) (env w))))
  /\ (StreamID (Header frame) = 0 ->
      DispatchFrame p ctx frame w
      = deliver p (handlers p OnMetadataPush) frame w
      /\ forall c e1 h,
           conn p = Some c ->
           conn_SetDeadline c (time_Now (env w) + maxLifetime p) (env w)
           = (None, e1) ->
           handlers p OnMetadataPush = Some h ->
           DispatchFrame p ctx frame w =
           Ret (handler_result frame (fst (h frame e1)), p)
               (record
                  (record w (EvSetDeadline (time_Now (env w) + maxLifetime p))
                     e1)
                  (EvHandle h frame) (snd (h frame e1)))).
Proof.
  intros Ht. split.
  - intros Hsid.
    assert (E : DispatchFrame p ctx frame w =
                Ret (None, p)
                  (record w (EvWarnf (StreamID (Header frame)))
                     (logger_Warnf (StreamID (Header frame)) (env w)))).
    { unfold DispatchFrame. rewrite Ht.
      apply Z.eqb_neq in Hsid. rewrite Hsid. reflexivity. }
    split; [exact E|].
    intros c w0 e0 fuel Hctx Hc Hread ->.
    apply Start_loop_iteration.
    eapply iteration_intro; eassumption.
  - intros Hsid.
    assert (E : DispatchFrame p ctx frame w
                = deliver p (handlers p OnMetadataPush) frame w).
    { unfold DispatchFrame. rewrite Ht, Hsid. reflexivity. }
    split; [exact E|].
    intros c e1 h Hc Hd Hh. rewrite E, Hh.
    apply (deliver_handled p c); assumption.
Qed.


(** C8.  [Send] returns the TransportClosed error, and calls nothing, when
    the transport or its connection is nil.  Otherwise it writes the frame,
    flushes only when [flush] is true, and calls the frame's [Done] exactly
    when the write, and the flush if there was one, returned no error: [Done]
    is called once, last, when [Send] returns nil, and not at all when it
    returns an error. *)
Theorem Send_releases_on_success (p : option (Transport Env))
    (frame : WriteableFrame Env) (flush : bool) w :
  (p = None \/ (exists q, p = Some q /\ conn q = None) ->
   Send p frame flush w = Ret (Some errTransportClosed) w)
  /\ (forall q c,
       p = Some q -> conn q = Some c ->
       Send p frame flush w =
       let '(werr, e1) := conn_Write c frame (env w) in
       let w1 := record w (EvWrite frame) e1 in
       match werr with
       | Some e => Ret (Some e) w1
       | None =>
           if flush then
             let '(ferr, e2) := conn_Flush c e1 in
             let w2 := record w1 EvFlush e2 in
             match ferr with
             | Some e => Ret (Some e) w2
             | None => Ret None (record w2 (EvDone frame) (Done frame e2))
             end
           else Ret None (record w1 (EvDone frame) (Done frame e1))
       end)
  /\ exists r e' new,
       Send p frame flush w = Ret r (mkWorld e' (trace w ++ new))
       /\ count is_Done new = match r with Some _ => 0 | None => 1 end%nat
       /\ (flush = false -> count is_Flush new = 0%nat).
Proof.
  assert (Hclosed : p = None \/ (exists q, p = Some q /\ conn q = None) ->
                    Send p frame flush w = Ret (Some errTransportClosed) w).
  { intros [->|(q & -> & Hq)]; unfold Send; [reflexivity|].
    rewrite Hq. reflexivity. }
  assert (Hopen : forall q c,
       p = Some q -> conn q = Some c ->
       Send p frame flush w =
       let '(werr, e1) := conn_Write c frame (env w) in
       let w1 := record w (EvWrite frame) e1 in
       match werr with
       | Some e => Ret (Some e) w1
       | None =>
           if flush then
             let '(ferr, e2) := conn_Flush c e1 in
             let w2 := record w1 EvFlush e2 in
             match ferr with
             | Some e => Ret (Some e) w2
             | None => Ret None (record w2 (EvDone frame) (Done frame e2))
             end
           else Ret None (record w1 (EvDone frame) (Done frame e1))
       end).
  { intros q c -> Hc. unfold Send. rewrite Hc.
    unfold bind, call, ret, record.
    destruct (conn_Write c frame (env w)) as [[e|] e1]; [reflexivity|].
    destruct flush; cbn [negb env trace]; [|reflexivity].
    destruct (conn_Flush c e1) as [[e|] e2]; reflexivity. }
  split; [exact Hclosed|]. split; [exact Hopen|].
  destruct p as [q|].
  - destruct (conn q) as [c|] eqn:Hc.
    + rewrite (Hopen q c eq_refl Hc). unfold record. cbn [trace env].
      destruct (conn_Write c frame (env w)) as [[e|] e1].
      * exists (Some e), e1, [EvWrite frame]. repeat split.
      * destruct flush.
        -- destruct (conn_Flush c e1) as [[e|] e2].
           ++ exists (Some e), e2, [EvWrite frame; EvFlush].
              rewrite <- app_assoc. split; [reflexivity|].
              split; [reflexivity|discriminate].
           ++ exists None, (Done frame e2),
                [EvWrite frame; EvFlush; EvDone frame].
              rewrite <- !app_assoc. split; [reflexivity|].
              split; [reflexivity|discriminate].
        -- exists None, (Done frame e1), [EvWrite frame; EvDone frame].
           rewrite <- app_assoc. repeat split.
    + rewrite Hclosed by (right; exists q; auto).
      exists (Some errTransportClosed), (env w), [].
      rewrite app_nil_r. destruct w. repeat split.
  - rewrite Hclosed by (left; reflexivity).
    exists (Some errTransportClosed), (env w), [].
    rewrite app_nil_r. destruct w. repeat split.
Qed.

Lemma Close_n_closed p w n :
  once p = true -> Close_n n p w = Ret (repeat None n, p) w.
Proof.
  intros Ho. induction n as [|n IH]; [reflexivity|].
  cbn [Close_n repeat]. unfold bind at 1. rewrite Close_eq, Ho.
  unfold bind at 1. rewrite IH. reflexivity.
Qed.

Lemma Close_n_open p c w n :
  once p = false -> conn p = Some c ->
  Close_n (S n) p w =
  Ret (fst (conn_Close c (env w)) :: repeat None n, set_once p true)
      (record w EvClose (snd (conn_Close c (env w)))).
Proof.
  intros Ho Hc. cbn [Close_n]. unfold bind at 1. rewrite Close_eq, Ho, Hc.
  destruct (conn_Close c (env w)) as [err e]. cbn [fst snd].
  unfold bind at 1. rewrite Close_n_closed by reflexivity. reflexivity.
Qed.

(** C10.  [Close] is idempotent: on a transport whose once has fired, any
    number of calls return nil and call nothing; on a fresh one the first
    call calls [conn.Close] and returns its result, and the calls after it
    return nil and call nothing.  Over any number of calls [conn.Close] is
    called at most once. *)
Theorem Close_idempotent p w n :
  (once p = true -> Close_n n p w = Ret (repeat None n, p) w)
  /\ (forall c,
       once p = false -> conn p = Some c ->
       Close_n (S n) p w =
       Ret (fst (conn_Close c (env w)) :: repeat None n, set_once p true)
           (record w EvClose (snd (conn_Close c (env w)))))
  /\ (forall errs p' w',
       Close_n n p w = Ret (errs, p') w' ->
       exists new,
         trace w' = trace w ++ new /\ (count is_Close new <= 1)%nat).
Proof.
  split; [apply Close_n_closed|]. split; [intros c; apply Close_n_open|].
  intros errs p' w' H.
  destruct (once p) eqn:Ho.
  - rewrite Close_n_closed in H by assumption. inversion H; subst.
    exists []. rewrite app_nil_r. split; [reflexivity|]. cbn. lia.
  - destruct n as [|n].
    + inversion H; subst. exists []. rewrite app_nil_r.
      split; [reflexivity|]. cbn. lia.
    + destruct (conn p) as [c|] eqn:Hc.
      * rewrite (Close_n_open p c) in H by assumption. inversion H; subst.
        exists [EvClose]. split; [reflexivity|]. cbn. lia.
      * cbn [Close_n] in H. unfold bind at 1 in H.
        rewrite Close_eq, Ho, Hc in H. discriminate.
Qed.

End TransportFacts.

(** ** Runs in the scripted environment *)

Import demo.



(** A run over a Payload frame, a Keepalive frame and the end of the
    stream. *)
Lemma Start_returns_witness :
  exists p' w',
    Start 5 wired ctx (start (quiet [inl payload3; inl keepalive]))
    = Ret (None, p') w'
    /\ once p' = true.
Proof.
  pose (e2 := note 0 (note 3 (quiet []))).
  pose (w2 := mkWorld e2
                [EvRead; EvSetDeadline 90000001000; EvHandle noting payload3;
                 EvRead; EvSetDeadline 90000001000;
                 EvHandle noting keepalive]).
  destruct (proj2 (Start_returns ctx wired
                     (start (quiet [inl payload3; inl keepalive])) 5)
              2%nat (set_lastRcvPos wired 42) w2 None
              (set_lastRcvPos wired 42) (record w2 EvRead e2)
              scripted) as (p' & w' & H & Ho & _).
  - eapply iterations_S.
    + eapply (iteration_intro ctx wired _ scripted payload3);
        try reflexivity; cbv; reflexivity.
    + eapply iterations_S.
      * eapply (iteration_intro ctx _ _ scripted keepalive);
          try reflexivity; cbv; reflexivity.
      * apply iterations_O.
  - apply (stops_read_EOF ctx (set_lastRcvPos wired 42) w2 scripted e2);
      reflexivity.
  - reflexivity.
  - lia.
  - exists p', w'. split; assumption.
Defined.

(** An Error frame on stream 0 and one on stream 5. *)
Lemma DispatchFrame_error_witness :
  DispatchFrame wired ctx error0 (start (quiet [])) =
  Ret (Some (ToError 0x0101 []), wired)
      (record (start (quiet [])) (EvHandle noting error0) (note 0 (quiet [])))
  /\ DispatchFrame wired ctx error5 (start (quiet [])) =
     Ret (None, wired)
         (record (record (start (quiet [])) (EvSetDeadline 90000001000)
                    (quiet []))
            (EvHandle noting error5) (note 5 (quiet []))).
Proof.
  split.
  - exact (proj1 (proj1 (DispatchFrame_error wired ctx error0
                           (start (quiet [])) eq_refl)
                    (mkFrameHeader 0 FrameTypeError 0) 0x0101 [] eq_refl
                    eq_refl)).
  - refine (proj2 (proj2 (DispatchFrame_error wired ctx error5
                            (start (quiet [])) eq_refl) _)
              scripted (quiet []) noting eq_refl eq_refl eq_refl).
    discriminate.
Defined.

(** C5, as stated, fails: with no handler registered, a Payload frame
    yields the error of [SetDeadline] when that fails, a MetadataPush with
    stream id 1 yields nil, and an Error with stream id 0 yields the decoded
    error; none of them is the NoHandler error. *)
Lemma no_handler_other_results :
  registered bare payload3 = None
  /\ DispatchFrame bare ctx payload3 (start stalled) =
     Ret (Some (errIO "deadline"), bare)
         (mkWorld stalled [EvSetDeadline 90000001000])
  /\ IsNoHandlerError (Some (errIO "deadline")) = false
  /\ registered bare push1 = None
  /\ DispatchFrame bare ctx push1 (start (quiet [])) =
     Ret (None, bare) (mkWorld (note (-1) (quiet [])) [EvWarnf 1])
  /\ IsNoHandlerError None = false
  /\ registered bare error0 = None
  /\ DispatchFrame bare ctx error0 (start (quiet [])) =
     Ret (Some (errFrame 0x0101 []), bare) (start (quiet []))
  /\ IsNoHandlerError (Some (errFrame 0x0101 [])) = false.
Proof. repeat split. Qed.

(** A Payload frame read by a transport with no handler. *)
Lemma DispatchFrame_no_handler_witness :
  DispatchFrame bare ctx payload3 (record (start (quiet [inl payload3])) EvRead (quiet []))
  = Ret (Some errNoHandler, bare)
        (mkWorld (quiet []) [EvRead; EvSetDeadline 90000001000])
  /\ exists p' w',
       Start 1 bare ctx (start (quiet [inl payload3])) =
       Ret (Some (errWrap errNoHandler "dispatch incoming frame failed:"), p')
           w'
       /\ once p' = true.
Proof.
  pose proof (DispatchFrame_no_handler bare scripted ctx payload3
                (record (start (quiet [inl payload3])) EvRead (quiet []))
                (quiet []) eq_refl eq_refl eq_refl eq_refl eq_refl eq_refl)
    as H.
  cbv zeta in H. destruct H as (H1 & _ & H3). split.
  - exact H1.
  - exact (H3 (start (quiet [inl payload3])) (quiet []) O
              eq_refl eq_refl eq_refl).
Defined.

(** A MetadataPush on stream 1 and one on stream 0. *)
Lemma DispatchFrame_metadata_push_witness :
  DispatchFrame wired ctx push1 (start (quiet [])) =
  Ret (None, wired)
      (record (start (quiet [])) (EvWarnf 1) (note (-1) (quiet [])))
  /\ DispatchFrame wired ctx push0 (start (quiet [])) =
     Ret (None, wired)
         (record (record (start (quiet [])) (EvSetDeadline 90000001000)
                    (quiet []))
            (EvHandle noting push0) (note 0 (quiet []))).
Proof.
  split.
  - refine (proj1 (proj1 (DispatchFrame_metadata_push wired ctx push1
                            (start (quiet [])) eq_refl) _)).
    discriminate.
  - exact (proj2 (proj2 (DispatchFrame_metadata_push wired ctx push0
                           (start (quiet [])) eq_refl) eq_refl)
             scripted (quiet []) noting eq_refl eq_refl eq_refl).
Defined.


(** A send with flush on the scripted connection, and one on a nil
    transport. *)
Lemma Send_releases_on_success_witness :
  Send (Some wired) outgoing true (start (quiet [])) =
  Ret None
      (mkWorld (note 99 (quiet []))
         [EvWrite outgoing; EvFlush; EvDone outgoing])
  /\ Send None outgoing true (start (quiet [])) =
     Ret (Some errTransportClosed) (start (quiet [])).
Proof.
  split.
  - exact (proj1 (proj2 (Send_releases_on_success (Some wired) outgoing true
                           (start (quiet []))))
             wired scripted eq_refl eq_refl).
  - exact (proj1 (Send_releases_on_success None outgoing true
                    (start (quiet [])))
             (or_introl eq_refl)).
Defined.

(** Four calls of [Close]. *)
Lemma Close_idempotent_witness :
  Close_n 4 wired (start (quiet [])) =
  Ret ([None; None; None; None], set_once wired true)
      (mkWorld (quiet []) [EvClose]).
Proof.
  exact (proj1 (proj2 (Close_idempotent wired (start (quiet [])) 3))
           scripted eq_refl eq_refl).
Defined.

(** * Further properties *)

(** ** The writeable Payload frame *)



(** X2.  Written into a buffer, a frame is appended to what the buffer
    holds, [WriteTo] reports no error, and the count it returns is the
    number of bytes appended: six for the header, three more and the
    metadata when there is metadata, and the data. *)
Theorem WriteTo_Buffer (p : framing.WriteablePayloadFrame) (buf : list byte) :
  framing.WriteTo Buffer p buf
  = ((len (framing.wire p), None), buf ++ framing.wire p)
  /\ len (framing.wire p)
     = 6 + (if 0 <? len (framing.metadata p)
            then 3 + len (framing.metadata p) else 0)
       + len (framing.data p).
Proof.
  split.
  - rewrite wire_eq.
    unfold framing.WriteTo, framing.header_WriteTo, framing.writePayload,
      framing.payload_layout, Buffer.
    cbn [writer_Write].
    destruct (0 <? len (framing.metadata p)) eqn:Em;
      destruct (0 <? len (framing.data p)) eqn:Ed;
      try (apply len_nil_iff in Ed; rewrite Ed);
      rewrite ?app_nil_r, ?len_app, <- ?app_assoc;
      repeat f_equal; cbn [app]; rewrite ?len_app; unfold len; cbn; lia.
  - rewrite wire_eq. unfold framing.payload_layout.
    destruct (0 <? len (framing.metadata p));
      rewrite ?len_app; unfold len, header_bytes, PutUint32, PutUint16,
        PutUint24; cbn [List.length app]; rewrite ?length_app;
      cbn [List.length]; lia.
Qed.

(** ** The transport, further *)

Lemma EventType_eqb_eq (a b : EventType) : EventType_eqb a b = true <-> a = b.
Proof.
  split.
  - destruct a, b; intros H; try reflexivity; discriminate H.
  - intros ->. destruct b; reflexivity.
Qed.

Section TransportMore.
Context {Env : Type} {G : Globals Env}.

Implicit Types (p : Transport Env) (w : World Env) (frame : BufferedFrame)
  (c : Conn Env) (ctx : context_Context Env).

Lemma Handle_getHandler_same p (ev : EventType)
    (h : option (FrameHandler Env)) :
  handlers (Handle p ev h) ev = h.
Proof.
  unfold Handle. cbn [handlers].
  rewrite (proj2 (EventType_eqb_eq ev ev) eq_refl). reflexivity.
Qed.

(** X3.  [Handle] followed by a lookup: the handler registered for an event
    is the one [getHandler] returns for it, also when it is nil; the handlers
    of the other events are as before; a second [Handle] for the same event
    replaces the first; and [Handle] touches nothing else of the
    transport. *)
Theorem Handle_getHandler p (ev : EventType)
    (h : option (FrameHandler Env)) :
  getHandler (Handle p ev h) ev = h
  /\ (forall ev', ev' <> ev ->
        getHandler (Handle p ev h) ev' = getHandler p ev')
  /\ (forall h' ev',
        getHandler (Handle (Handle p ev h') ev h) ev'
        = getHandler (Handle p ev h) ev')
  /\ conn (Handle p ev h) = conn p
  /\ maxLifetime (Handle p ev h) = maxLifetime p
  /\ lastRcvPos (Handle p ev h) = lastRcvPos p
  /\ once (Handle p ev h) = once p.
Proof.
  unfold getHandler. repeat split; try reflexivity;
    try (unfold Handle; cbn [handlers]).
  - apply Handle_getHandler_same.
  - intros ev' Hne. destruct (EventType_eqb ev' ev) eqn:E; [|reflexivity].
    apply EventType_eqb_eq in E. contradiction.
  - intros h' ev'. destruct (EventType_eqb ev' ev); reflexivity.
Qed.

Lemma after_switch_Handle p ev (h : option (FrameHandler Env)) frame :
  maxLifetime (after_switch (Handle p ev h) frame)
  = maxLifetime (after_switch p frame)
  /\ conn (after_switch (Handle p ev h) frame) = conn p.
Proof.
  unfold after_switch.
  destruct frame as [hd ml|hd pos|hd pos|hd code data|hd body];
    try (split; reflexivity).
  - destruct (FrameType_eqb (Type_ hd) FrameTypeSetup); split; reflexivity.
  - destruct (FrameType_eqb (Type_ hd) FrameTypeResumeOK); split; reflexivity.
  - destruct (FrameType_eqb (Type_ hd) FrameTypeKeepalive); split; reflexivity.
Qed.

(** X4.  Registering, then dispatching: once a handler is registered for an
    event, a frame dispatched under that event has the deadline set and then
    that handler called with it, the handler's error coming back wrapped;
    once nil is registered for the event, the same frame yields the
    NoHandler error after the deadline. *)
Theorem Handle_then_DispatchFrame p c ctx frame ev (h : FrameHandler Env)
    w e1 :
  conn p = Some c ->
  asserts_ok frame = true -> dropped frame = false -> fatal frame = false ->
  event_of frame = Some ev ->
  conn_SetDeadline c
    (time_Now (env w) + maxLifetime (after_switch p frame)) (env w)
  = (None, e1) ->
  let w1 :=
    record w
      (EvSetDeadline (time_Now (env w) + maxLifetime (after_switch p frame)))
      e1 in
  DispatchFrame (Handle p ev (Some h)) ctx frame w
  = Ret (handler_result frame (fst (h frame e1)),
         after_switch (Handle p ev (Some h)) frame)
        (record w1 (EvHandle h frame) (snd (h frame e1)))
  /\ DispatchFrame (Handle p ev None) ctx frame w
     = Ret (Some errNoHandler, after_switch (Handle p ev None) frame) w1.
Proof.
  intros Hc Ha Hd Hf Hev Hdl w1. subst w1. split.
  - rewrite (DispatchFrame_delivers _ ctx frame Ha Hd Hf).
    destruct (after_switch_Handle p ev (Some h) frame) as (Hm & Hc').
    unfold registered. rewrite Hev.
    replace (handlers (Handle p ev (Some h)) ev) with (Some h)
      by (symmetry; apply (Handle_getHandler_same p ev (Some h))).
    rewrite <- Hm in Hdl |- *.
    apply (deliver_handled _ c); [congruence|exact Hdl].
  - rewrite (DispatchFrame_delivers _ ctx frame Ha Hd Hf).
    destruct (after_switch_Handle p ev None frame) as (Hm & Hc').
    unfold registered. rewrite Hev.
    replace (handlers (Handle p ev None) ev) with (@None (FrameHandler Env))
      by (symmetry; apply (Handle_getHandler_same p ev None)).
    rewrite <- Hm in Hdl |- *.
    apply (deliver_unhandled _ c); [congruence|exact Hdl].
Qed.

(** X5.  [SetLifetime] ignores a lifetime below 1 and takes any other; it
    never makes a positive lifetime non-positive and touches nothing else;
    and the lifetime it sets is the one the next deadline is computed from,
    for every frame but a Setup frame, which brings its own. *)
Theorem SetLifetime_then_deadline p (lifetime : Z) :
  (lifetime < 1 -> SetLifetime p lifetime = p)
  /\ (1 <= lifetime -> maxLifetime (SetLifetime p lifetime) = lifetime)
  /\ (1 <= maxLifetime p -> 1 <= maxLifetime (SetLifetime p lifetime))
  /\ conn (SetLifetime p lifetime) = conn p
  /\ lastRcvPos (SetLifetime p lifetime) = lastRcvPos p
  /\ once (SetLifetime p lifetime) = once p
  /\ handlers (SetLifetime p lifetime) = handlers p
  /\ (forall c ctx frame w,
        1 <= lifetime ->
        conn p = Some c ->
        asserts_ok frame = true -> dropped frame = false ->
        fatal frame = false ->
        Type_ (Header frame) <> FrameTypeSetup ->
        exists r p' w' rest,
          DispatchFrame (SetLifetime p lifetime) ctx frame w = Ret (r, p') w'
          /\ maxLifetime p' = lifetime
          /\ trace w' =
             trace w ++ EvSetDeadline (time_Now (env w) + lifetime) :: rest
          /\ deadlines rest = []).
Proof.
  assert (Hsmall : lifetime < 1 -> SetLifetime p lifetime = p).
  { intros Hl. unfold SetLifetime.
    destruct (Z.ltb_spec lifetime 1); [reflexivity|lia]. }
  assert (Hbig : 1 <= lifetime ->
                 SetLifetime p lifetime = set_maxLifetime p lifetime).
  { intros Hl. unfold SetLifetime.
    destruct (Z.ltb_spec lifetime 1); [lia|reflexivity]. }
  assert (Hcases : lifetime < 1 \/ 1 <= lifetime) by lia.
  split; [exact Hsmall|].
  split; [intros Hl; rewrite Hbig by assumption; reflexivity|].
  split.
  { intros Hp. destruct Hcases as [Hl|Hl].
    - rewrite Hsmall by assumption. exact Hp.
    - rewrite Hbig by assumption. exact Hl. }
  split; [destruct Hcases as [Hl|Hl];
          [rewrite Hsmall|rewrite Hbig]; auto|].
  split; [destruct Hcases as [Hl|Hl];
          [rewrite Hsmall|rewrite Hbig]; auto|].
  split; [destruct Hcases as [Hl|Hl];
          [rewrite Hsmall|rewrite Hbig]; auto|].
  split; [destruct Hcases as [Hl|Hl];
          [rewrite Hsmall|rewrite Hbig]; auto|].
  intros c ctx frame w Hl Hc Ha Hd Hf Ht. rewrite Hbig by assumption.
  set (q := set_maxLifetime p lifetime).
  assert (Hq : maxLifetime (after_switch q frame) = lifetime).
  { unfold after_switch.
    destruct frame as [h ml|h pos|h pos| |]; try reflexivity.
    - cbn [Header] in Ht. destruct (Type_ h); try reflexivity. congruence.
    - destruct (FrameType_eqb (Type_ h) FrameTypeResumeOK); reflexivity.
    - destruct (FrameType_eqb (Type_ h) FrameTypeKeepalive); reflexivity. }
  rewrite (DispatchFrame_delivers q ctx frame Ha Hd Hf).
  assert (Hc1 : conn (after_switch q frame) = Some c)
    by (rewrite after_switch_conn; exact Hc).
  destruct (deliver_returns (after_switch q frame) c (registered q frame)
              frame w Hc1) as (r & w' & Hr & rest & Htr & Hdl).
  rewrite Hq in Htr. exists r, (after_switch q frame), w', rest. auto.
Qed.

(** [Flush], call by call. *)
Lemma Flush_eq p c w :
  conn p = Some c ->
  Flush (Some p) w =
  Ret (fst (conn_Flush c (env w)))
      (record w EvFlush (snd (conn_Flush c (env w)))).
Proof.
  intros Hc. unfold Flush. rewrite Hc. unfold call, record.
  destruct (conn_Flush c (env w)); reflexivity.
Qed.

(** [Send] on a transport with a connection, call by call. *)
Lemma Send_eq p c (frame : WriteableFrame Env) (flush : bool) w :
  conn p = Some c ->
  Send (Some p) frame flush w =
  let '(werr, e1) := conn_Write c frame (env w) in
  let w1 := record w (EvWrite frame) e1 in
  match werr with
  | Some e => Ret (Some e) w1
  | None =>
      if flush then
        let '(ferr, e2) := conn_Flush c e1 in
        let w2 := record w1 EvFlush e2 in
        match ferr with
        | Some e => Ret (Some e) w2
        | None => Ret None (record w2 (EvDone frame) (Done frame e2))
        end
      else Ret None (record w1 (EvDone frame) (Done frame e1))
  end.
Proof.
  intros Hc. unfold Send. rewrite Hc.
  unfold bind, call, ret, record.
  destruct (conn_Write c frame (env w)) as [[e|] e1]; [reflexivity|].
  destruct flush; cbn [negb env trace]; [|reflexivity].
  destruct (conn_Flush c e1) as [[e|] e2]; reflexivity.
Qed.

(** X6.  A [Send] without flush followed by [Flush]: when the write
    succeeds the frame is released before the flush, so it is released
    whatever the flush returns, and the result of the pair is the result of
    the flush; a [Send] with flush whose flush fails does not release the
    frame. *)
Theorem Send_then_Flush p c (frame : WriteableFrame Env) w e1 :
  conn p = Some c ->
  conn_Write c frame (env w) = (None, e1) ->
  bind (Send (Some p) frame false) (fun _ => Flush (Some p)) w
  = Ret (fst (conn_Flush c (Done frame e1)))
        (mkWorld (snd (conn_Flush c (Done frame e1)))
           (trace w ++ [EvWrite frame; EvDone frame; EvFlush]))
  /\ (forall e e2,
        conn_Flush c e1 = (Some e, e2) ->
        Send (Some p) frame true w
        = Ret (Some e) (mkWorld e2 (trace w ++ [EvWrite frame; EvFlush]))).
Proof.
  intros Hc Hw. split.
  - unfold bind at 1.
    rewrite (Send_eq p c frame false w Hc).
    rewrite Hw. cbv beta iota zeta. rewrite (Flush_eq p c) by assumption.
    unfold record. cbn [env trace]. rewrite <- !app_assoc. reflexivity.
  - intros e e2 Hfl.
    rewrite (Send_eq p c frame true w Hc).
    rewrite Hw. cbv zeta. rewrite Hfl. unfold record. cbn [env trace].
    rewrite <- app_assoc. reflexivity.
Qed.

(** X7.  [Close] does not stop [Send]: after [Close] on a transport with a
    connection, the once has fired and the connection is still there, so
    [Send] does not return the TransportClosed error of its own; it calls
    [conn.Write] exactly as before the [Close]. *)
Theorem Send_after_Close p c (frame : WriteableFrame Env) (flush : bool) w :
  conn p = Some c ->
  exists err p' w',
    Close p w = Ret (err, p') w'
    /\ once p' = true
    /\ conn p' = Some c
    /\ Send (Some p') frame flush w' = Send (Some p) frame flush w'
    /\ exists r e rest,
         Send (Some p') frame flush w'
         = Ret r (mkWorld e (trace w' ++ EvWrite frame :: rest))
         /\ (r = Some errTransportClosed ->
             fst (conn_Write c frame (env w')) = Some errTransportClosed
             \/ (flush = true
                 /\ fst (conn_Flush c (snd (conn_Write c frame (env w'))))
                    = Some errTransportClosed)).
Proof.
  intros Hc.
  assert (Hsend : forall q w', conn q = Some c ->
            exists r e rest,
              Send (Some q) frame flush w'
              = Ret r (mkWorld e (trace w' ++ EvWrite frame :: rest))
              /\ (r = Some errTransportClosed ->
                  fst (conn_Write c frame (env w')) = Some errTransportClosed
                  \/ (flush = true
                      /\ fst (conn_Flush c
                                (snd (conn_Write c frame (env w'))))
                         = Some errTransportClosed))).
  { intros q w' Hq. rewrite (Send_eq q c frame flush w' Hq).
    unfold record. cbn [env trace].
    destruct (conn_Write c frame (env w')) as [[e|] e1]; cbn [fst snd].
    - exists (Some e), e1, []. split; [reflexivity|]. intros ->. auto.
    - destruct flush.
      + destruct (conn_Flush c e1) as [[e|] e2]; cbn [fst].
        * exists (Some e), e2, [EvFlush]. rewrite <- app_assoc.
          split; [reflexivity|]. intros ->. auto.
        * exists None, (Done frame e2), [EvFlush; EvDone frame].
          rewrite <- !app_assoc. split; [reflexivity|]. discriminate.
      + exists None, (Done frame e1), [EvDone frame].
        rewrite <- app_assoc. split; [reflexivity|]. discriminate. }
  rewrite Close_eq. destruct (once p) eqn:Ho.
  - exists None, p, w. repeat split; auto.
  - rewrite Hc. destruct (conn_Close c (env w)) as [err e] eqn:Hcl.
    exists err, (set_once p true), (record w EvClose e).
    split; [reflexivity|]. split; [reflexivity|]. split; [exact Hc|].
    split; [reflexivity|]. apply Hsend. exact Hc.
Qed.

(** X8.  [ReadFirst]: when the context is done it returns the context's
    error without reading; otherwise it reads once, returning the frame read,
    or the read's error wrapped, [io.EOF] like any other.  On every error it
    closes the transport before returning; on success it leaves the
    transport as it was. *)
Theorem ReadFirst_closes_on_error p c ctx w :
  conn p = Some c ->
  (forall e,
     ctx_Err ctx (env w) = Some e ->
     ReadFirst p ctx w =
     if once p then Ret (None, Some e, p) w
     else Ret (None, Some e, set_once p true)
              (record w EvClose (snd (conn_Close c (env w)))))
  /\ (forall f e1,
        ctx_Err ctx (env w) = None ->
        conn_Read c (env w) = (inl f, e1) ->
        ReadFirst p ctx w = Ret (Some f, None, p) (record w EvRead e1))
  /\ (forall e e1,
        ctx_Err ctx (env w) = None ->
        conn_Read c (env w) = (inr e, e1) ->
        ReadFirst p ctx w =
        if once p
        then Ret (None, Some (errWrap e "read first frame failed"), p)
                 (record w EvRead e1)
        else Ret (None, Some (errWrap e "read first frame failed"),
                  set_once p true)
                 (record (record w EvRead e1) EvClose
                    (snd (conn_Close c e1)))).
Proof.
  intros Hc. split; [|split].
  - intros e Hctx. unfold ReadFirst. unfold bind at 1, peek at 1.
    rewrite Hctx. unfold bind at 1, ret at 1. unfold bind.
    rewrite Close_eq. destruct (once p); [reflexivity|].
    rewrite Hc. destruct (conn_Close c (env w)); reflexivity.
  - intros f e1 Hctx Hread. unfold ReadFirst. unfold bind at 1, peek at 1.
    rewrite Hctx, Hc. unfold bind, call, ret, record. rewrite Hread.
    reflexivity.
  - intros e e1 Hctx Hread. unfold ReadFirst. unfold bind at 1, peek at 1.
    rewrite Hctx, Hc. unfold bind at 1. unfold bind at 1, call at 1.
    rewrite Hread. unfold ret at 1. unfold bind. rewrite Close_eq.
    destruct (once p); [reflexivity|].
    rewrite Hc. cbn [env]. destruct (conn_Close c e1); reflexivity.
Qed.

Lemma deliver_calls p handler frame w r p' w' :
  deliver p handler frame w = Ret (r, p') w' ->
  exists new, trace w' = trace w ++ new /\ dispatch_calls frame new.
Proof.
  unfold deliver, bind, call, peek, ret.
  destruct (conn p) as [c|]; [|discriminate].
  cbn [env trace].
  destruct (conn_SetDeadline c _ (env w)) as [[e|] e1].
  - intros H; inversion H; subst. eexists. split; [reflexivity|constructor].
  - destruct handler as [h|].
    + cbn [env trace]. destruct (h frame e1) as [[e|] e2];
        intros H; inversion H; subst; cbn [trace]; rewrite <- app_assoc;
        (eexists; split; [reflexivity|constructor]).
    + intros H; inversion H; subst. eexists. split; [reflexivity|constructor].
Qed.

Lemma DispatchFrame_trace p ctx frame w r p' w' :
  DispatchFrame p ctx frame w = Ret (r, p') w' ->
  exists new, trace w' = trace w ++ new /\ dispatch_calls frame new.
Proof.
  unfold DispatchFrame.
  destruct (Type_ (Header frame)); intros H;
    try solve [eapply deliver_calls; exact H];
    try solve [destruct frame; try discriminate;
               eapply deliver_calls; exact H].
  - destruct (StreamID (Header frame) =? 0).
    + destruct frame; try discriminate.
      unfold bind, call, ret in H.
      destruct (getHandler p OnErrorWithZeroStreamID) as [hz|].
      * cbn [env trace] in H. destruct (hz _ (env w)).
        inversion H; subst. eexists. split; [reflexivity|constructor].
      * inversion H; subst. exists []. rewrite app_nil_r.
        split; [reflexivity|constructor].
    + eapply deliver_calls; exact H.
  - destruct (negb (StreamID (Header frame) =? 0)).
    + unfold bind, call, ret in H. inversion H; subst.
      eexists. split; [reflexivity|constructor].
    + eapply deliver_calls; exact H.
Qed.

Lemma dispatch_calls_counts frame (new : list (Event Env)) :
  dispatch_calls frame new ->
  count is_Read new = O /\ count is_Write new = O /\ count is_Flush new = O
  /\ count is_Close new = O /\ count is_Done new = O
  /\ (count is_SetDeadline new <= 1)%nat /\ (count is_Handle new <= 1)%nat.
Proof. intros H; inversion H; cbn; repeat split; lia. Qed.

(** X9.  Whatever the frame and the handlers, the calls [DispatchFrame]
    makes before it returns are one of: none; one warning; the
    zero-stream-id error handler alone; the deadline alone; the deadline,
    then one handler, with the frame dispatched.  So it sets at most one
    deadline and calls at most one handler, and it never reads, writes,
    flushes or closes the connection, nor releases a frame. *)
Theorem DispatchFrame_calls p ctx frame w r p' w' :
  DispatchFrame p ctx frame w = Ret (r, p') w' ->
  exists new,
    trace w' = trace w ++ new
    /\ dispatch_calls frame new
    /\ count is_Read new = O /\ count is_Write new = O
    /\ count is_Flush new = O /\ count is_Close new = O
    /\ count is_Done new = O
    /\ (count is_SetDeadline new <= 1)%nat /\ (count is_Handle new <= 1)%nat.
Proof.
  intros H. apply DispatchFrame_trace in H. destruct H as (new & Ht & Hc).
  exists new. split; [exact Ht|]. split; [exact Hc|].
  apply (dispatch_calls_counts frame). exact Hc.
Qed.

Lemma count_app (f : Event Env -> bool) (a b : list (Event Env)) :
  count f (a ++ b) = (count f a + count f b)%nat.
Proof. unfold count. rewrite filter_app, length_app. reflexivity. Qed.

Lemma receiving_app (a b : list (Event Env)) :
  receiving a -> receiving b -> receiving (a ++ b).
Proof.
  unfold receiving. rewrite !count_app. intros (?&?&?&?&?) (?&?&?&?&?).
  repeat split; lia.
Qed.

Lemma receiving_read_dispatch frame (new : list (Event Env)) :
  dispatch_calls frame new ->
  receiving (EvRead :: new) /\ count is_Close (EvRead :: new) = O.
Proof.
  intros H. apply dispatch_calls_counts in H.
  destruct H as (?&?&?&?&?&?&?).
  unfold receiving. change (EvRead :: new) with ([@EvRead Env] ++ new).
  rewrite !count_app. cbn. repeat split; lia.
Qed.

Lemma iteration_trace ctx p w p1 w1 :
  iteration ctx (p, w) (p1, w1) ->
  exists new,
    trace w1 = trace w ++ new /\ receiving new /\ count is_Close new = O.
Proof.
  intros H; inversion H as [? ? c f e1 ? ? Hctx Hc Hread Hd]; subst.
  apply DispatchFrame_trace in Hd. destruct Hd as (new & Ht & Hcalls).
  exists (EvRead :: new). cbn [record trace] in Ht. rewrite Ht, <- app_assoc.
  split; [reflexivity|]. apply (receiving_read_dispatch f). exact Hcalls.
Qed.

Lemma iterations_trace ctx n s s' :
  iterations ctx n s s' ->
  exists new,
    trace (snd s') = trace (snd s) ++ new
    /\ receiving new /\ count is_Close new = O.
Proof.
  induction 1 as [s|n [p1 w1] [p2 w2] s3 Hstep Hrest IH].
  - exists []. rewrite app_nil_r. split; [reflexivity|].
    split; [unfold receiving; cbn; repeat split; lia|reflexivity].
  - apply iteration_trace in Hstep. destruct Hstep as (a & Ha & Hra & Hca).
    destruct IH as (b & Hb & Hrb & Hcb). cbn [snd] in *.
    exists (a ++ b). rewrite Hb, Ha, <- app_assoc. split; [reflexivity|].
    split; [apply receiving_app; assumption|].
    rewrite count_app. lia.
Qed.



(** X11.  An error returned by a handler ends [Start]: [DispatchFrame] wraps
    it, so even [io.EOF] from a handler is not taken for the end of the
    stream; [Start] returns the handler's error wrapped twice and closes the
    transport. *)
Theorem handler_error_ends_Start p c ctx frame (h : FrameHandler Env)
    w0 e0 e1 e e2 fuel :
  ctx_Err ctx (env w0) = None ->
  conn p = Some c ->
  conn_Read c (env w0) = (inl frame, e0) ->
  asserts_ok frame = true -> dropped frame = false -> fatal frame = false ->
  registered p frame = Some h ->
  conn_SetDeadline c
    (time_Now e0 + maxLifetime (after_switch p frame)) e0 = (None, e1) ->
  h frame e1 = (Some e, e2) ->
  let w2 :=
    record
      (record (record w0 EvRead e0)
         (EvSetDeadline (time_Now e0 + maxLifetime (after_switch p frame)))
         e1)
      (EvHandle h frame) e2 in
  let err :=
    errWrap
      (errWrap e
         ("handle frame " ++ FrameType_String (Type_ (Header frame))
          ++ " failed:"))
      "dispatch incoming frame failed:" in
  Start (S fuel) p ctx w0 =
  if once p then Ret (Some err, after_switch p frame) w2
  else Ret (Some err, set_once (after_switch p frame) true)
           (record w2 EvClose (snd (conn_Close c e2))).
Proof.
  intros Hctx Hc Hread Ha Hd Hf Hreg Hdl Hh w2 err.
  assert (E : DispatchFrame p ctx frame (record w0 EvRead e0)
              = Ret (handler_result frame (Some e), after_switch p frame) w2).
  { rewrite (DispatchFrame_delivers p ctx frame Ha Hd Hf), Hreg.
    rewrite (deliver_handled (after_switch p frame) c h frame
               (record w0 EvRead e0) e1);
      [|rewrite after_switch_conn; exact Hc|exact Hdl].
    cbn [record env]. rewrite Hh. reflexivity. }
  assert (Hstop : stops ctx (p, w0) (Some err) (after_switch p frame, w2)).
  { eapply stops_dispatch_error; try eassumption. discriminate. }
  rewrite (Start_run ctx 0 p w0 p w0 _ _ _ c (S fuel)
             (iterations_O ctx (p, w0)) Hstop Hc) by lia.
  reflexivity.
Qed.

(** X12.  [io.EOF] from [SetDeadline] is taken for the end of the stream:
    [DispatchFrame] returns the error of [SetDeadline] as it is, so when that
    error is [io.EOF], [Start] stops without calling the handler and returns
    nil. *)
Theorem deadline_EOF_ends_Start p c ctx frame w0 e0 e1 fuel :
  ctx_Err ctx (env w0) = None ->
  conn p = Some c ->
  conn_Read c (env w0) = (inl frame, e0) ->
  asserts_ok frame = true -> dropped frame = false -> fatal frame = false ->
  conn_SetDeadline c
    (time_Now e0 + maxLifetime (after_switch p frame)) e0
  = (Some io_EOF, e1) ->
  let w1 :=
    record (record w0 EvRead e0)
      (EvSetDeadline (time_Now e0 + maxLifetime (after_switch p frame))) e1 in
  Start (S fuel) p ctx w0 =
  if once p then Ret (None, after_switch p frame) w1
  else Ret (None, set_once (after_switch p frame) true)
           (record w1 EvClose (snd (conn_Close c e1))).
Proof.
  intros Hctx Hc Hread Ha Hd Hf Hdl w1.
  assert (E : DispatchFrame p ctx frame (record w0 EvRead e0)
              = Ret (Some io_EOF, after_switch p frame) w1).
  { rewrite (DispatchFrame_delivers p ctx frame Ha Hd Hf).
    rewrite (deliver_eq (after_switch p frame) c)
      by (rewrite after_switch_conn; exact Hc).
    cbv zeta. cbn [record env]. rewrite Hdl. reflexivity. }
  assert (Hstop : stops ctx (p, w0) None (after_switch p frame, w1)).
  { eapply stops_dispatch_EOF; eassumption. }
  rewrite (Start_run ctx 0 p w0 p w0 _ _ _ c (S fuel)
             (iterations_O ctx (p, w0)) Hstop Hc) by lia.
  reflexivity.
Qed.

(** X13.  [DispatchFrame] panics in two cases only: a type assertion fails
    (the frame is not of the Go type its header announces), or the transport
    has no connection and the frame is one for which the deadline is set.
    A dropped MetadataPush and a zero-stream-id Error are dispatched without
    a connection. *)
Theorem DispatchFrame_panics p ctx frame w :
  DispatchFrame p ctx frame w = Panic
  <-> (asserts_ok frame = false
       \/ (conn p = None /\ dropped frame = false /\ fatal frame = false)).
Proof.
  destruct (asserts_ok frame) eqn:Ha.
  - destruct (dropped frame) eqn:Hd.
    + assert (E : exists w', DispatchFrame p ctx frame w = Ret (None, p) w').
      { unfold dropped in Hd. unfold DispatchFrame.
        destruct (Type_ (Header frame)); try discriminate.
        rewrite Hd. eexists. reflexivity. }
      destruct E as (w' & E). rewrite E. split; [discriminate|].
      intros [H|(_ & H & _)]; discriminate.
    + destruct (fatal frame) eqn:Hf.
      * assert (E : exists r w', DispatchFrame p ctx frame w = Ret (r, p) w').
        { unfold fatal in Hf. unfold asserts_ok in Ha. unfold DispatchFrame.
          destruct (Type_ (Header frame)); try discriminate.
          rewrite Hf in Ha |- *. destruct frame; try discriminate.
          unfold bind, call, ret.
          destruct (getHandler p OnErrorWithZeroStreamID) as [hz|].
          - cbn [env trace]. destruct (hz _ (env w)). eexists _, _.
            reflexivity.
          - eexists _, _. reflexivity. }
        destruct E as (r & w' & E). rewrite E. split; [discriminate|].
        intros [H|(_ & _ & H)]; discriminate.
      * rewrite (DispatchFrame_delivers p ctx frame Ha Hd Hf).
        destruct (conn p) as [c|] eqn:Hc.
        -- destruct (deliver_returns (after_switch p frame) c
                       (registered p frame) frame w)
             as (r & w' & E & _); [rewrite after_switch_conn; exact Hc|].
           rewrite E. split; [discriminate|].
           intros [H|(H & _)]; discriminate.
        -- split; [auto|]. intros _. unfold deliver.
           rewrite after_switch_conn, Hc. reflexivity.
  - split; [auto|]. intros _.
    unfold asserts_ok in Ha. unfold DispatchFrame.
    destruct (Type_ (Header frame)); try discriminate;
      try (destruct frame; try discriminate; reflexivity).
    destruct (StreamID (Header frame) =? 0); [|discriminate].
    destruct frame; try discriminate; reflexivity.
Qed.

(** X14.  Which methods stand a transport without a connection: [Send] and
    [Flush] return the TransportClosed error and call nothing, on a nil
    transport as well; [Close], unless the once has fired, [ReadFirst] and
    [Start], unless the context is done and the once has fired, panic. *)
Theorem without_connection p ctx (frame : WriteableFrame Env)
    (flush : bool) w :
  conn p = None ->
  Send (Some p) frame flush w = Ret (Some errTransportClosed) w
  /\ Send None frame flush w = Ret (Some errTransportClosed) w
  /\ Flush (Some p) w = Ret (Some errTransportClosed) w
  /\ Flush None w = Ret (Some errTransportClosed) w
  /\ (once p = false -> Close p w = Panic)
  /\ (ctx_Err ctx (env w) = None -> ReadFirst p ctx w = Panic)
  /\ (once p = false -> forall fuel, Start (S fuel) p ctx w = Panic)
  /\ (ctx_Err ctx (env w) = None ->
      forall fuel, Start (S fuel) p ctx w = Panic).
Proof.
  intros Hc.
  assert (Hclose : once p = false -> forall w0, Close p w0 = Panic).
  { intros Ho w0. rewrite Close_eq, Ho, Hc. reflexivity. }
  assert (Hloop : ctx_Err ctx (env w) = None ->
                  forall fuel, Start_loop (S fuel) p ctx w = Panic).
  { intros Hctx fuel. cbn [Start_loop]. unfold bind, peek.
    rewrite Hctx, Hc. reflexivity. }
  split; [unfold Send; rewrite Hc; reflexivity|].
  split; [reflexivity|].
  split; [unfold Flush; rewrite Hc; reflexivity|].
  split; [reflexivity|].
  split; [intros Ho; apply Hclose; exact Ho|].
  split.
  { intros Hctx. unfold ReadFirst. unfold bind at 1, peek at 1.
    rewrite Hctx, Hc. reflexivity. }
  split.
  - intros Ho fuel. unfold Start. unfold bind at 1.
    destruct (ctx_Err ctx (env w)) as [e|] eqn:Hctx.
    + cbn [Start_loop]. unfold bind at 1, peek at 1. rewrite Hctx.
      unfold ret. unfold bind. rewrite Hclose by assumption. reflexivity.
    + rewrite Hloop by reflexivity. reflexivity.
  - intros Hctx fuel. unfold Start. unfold bind at 1.
    rewrite Hloop by assumption. reflexivity.
Qed.

(** X15.  [DispatchFrame] returns nil only for a frame that was handled or
    dropped: either the frame is a MetadataPush with non-zero stream id and
    the only call was the warning, or a handler is registered for the frame,
    the deadline was set without error, and that handler was called and
    returned nil. *)
Theorem DispatchFrame_nil p ctx frame w p' w' :
  DispatchFrame p ctx frame w = Ret (None, p') w' ->
  (dropped frame = true
   /\ trace w' = trace w ++ [EvWarnf (StreamID (Header frame))])
  \/ (exists c h e1 e2,
        conn p = Some c
        /\ registered p frame = Some h
        /\ conn_SetDeadline c
             (time_Now (env w) + maxLifetime (after_switch p frame)) (env w)
           = (None, e1)
        /\ h frame e1 = (None, e2)
        /\ env w' = e2
        /\ trace w' =
           trace w
           ++ [EvSetDeadline
                 (time_Now (env w) + maxLifetime (after_switch p frame));
               EvHandle h frame]).
Proof.
  intros H.
  destruct (asserts_ok frame) eqn:Ha.
  2:{ assert (E : DispatchFrame p ctx frame w = Panic).
      { unfold asserts_ok in Ha. unfold DispatchFrame.
        destruct (Type_ (Header frame)); try discriminate;
          try (destruct frame; try discriminate; reflexivity).
        destruct (StreamID (Header frame) =? 0); [|discriminate].
        destruct frame; try discriminate; reflexivity. }
      rewrite E in H. discriminate. }
  destruct (dropped frame) eqn:Hd.
  { left. split; [reflexivity|].
    unfold dropped in Hd. unfold DispatchFrame in H.
    destruct (Type_ (Header frame)); try discriminate.
    rewrite Hd in H. unfold bind, call, ret in H. inversion H; subst.
    reflexivity. }
  destruct (fatal frame) eqn:Hf.
  { exfalso. unfold fatal in Hf. unfold asserts_ok in Ha.
    unfold DispatchFrame in H.
    destruct (Type_ (Header frame)); try discriminate.
    rewrite Hf in Ha, H. destruct frame; try discriminate.
    unfold bind, call, ret in H.
    destruct (getHandler p OnErrorWithZeroStreamID) as [hz|].
    - cbn [env trace] in H. destruct (hz _ (env w)). discriminate.
    - discriminate. }
  right. rewrite (DispatchFrame_delivers p ctx frame Ha Hd Hf) in H.
  destruct (conn p) as [c|] eqn:Hc.
  2:{ unfold deliver in H. rewrite after_switch_conn, Hc in H.
      discriminate. }
  rewrite (deliver_eq (after_switch p frame) c) in H
    by (rewrite after_switch_conn; exact Hc).
  cbv zeta in H.
  destruct (conn_SetDeadline c _ (env w)) as [[e|] e1] eqn:Hdl;
    [discriminate|].
  destruct (registered p frame) as [h|]; [|discriminate].
  destruct (h frame e1) as [[e|] e2] eqn:Hh; [discriminate|].
  inversion H; subst. cbn [record env trace]. rewrite <- app_assoc.
  exists c, h, e1, e2. repeat split; auto.
Qed.

Lemma read_dispatch_counts frame (new : list (Event Env)) :
  dispatch_calls frame new ->
  count is_Close (EvRead :: new) = O
  /\ (1 <= count is_Read (EvRead :: new))%nat.
Proof.
  intros H. apply dispatch_calls_counts in H. destruct H as (_&_&_&Hc&_).
  change (EvRead :: new) with ([@EvRead Env] ++ new).
  rewrite !count_app. cbn. lia.
Qed.

Lemma iteration_reads ctx p w p1 w1 :
  iteration ctx (p, w) (p1, w1) ->
  exists new,
    trace w1 = trace w ++ new /\ count is_Close new = O
    /\ (1 <= count is_Read new)%nat.
Proof.
  intros H; inversion H as [? ? c f e1 ? ? Hctx Hc Hread Hd]; subst.
  apply DispatchFrame_trace in Hd. destruct Hd as (new & Ht & Hcalls).
  exists (EvRead :: new). cbn [record trace] in Ht. rewrite Ht, <- app_assoc.
  split; [reflexivity|]. apply (read_dispatch_counts f). exact Hcalls.
Qed.

Lemma stops_reads ctx p w r p1 w1 :
  stops ctx (p, w) r (p1, w1) ->
  exists new,
    trace w1 = trace w ++ new /\ count is_Close new = O
    /\ (ctx_Err ctx (env w) = None -> (1 <= count is_Read new)%nat).
Proof.
  intros H; inversion H; subst.
  - exists []. rewrite app_nil_r. split; [reflexivity|].
    split; [reflexivity|]. congruence.
  - exists [EvRead]. split; [reflexivity|]. split; [reflexivity|]. cbn. lia.
  - exists [EvRead]. split; [reflexivity|]. split; [reflexivity|]. cbn. lia.
  - match goal with Hd : DispatchFrame _ _ ?f _ = _ |- _ =>
      apply DispatchFrame_trace in Hd; destruct Hd as (new & Ht & Hcalls);
      exists (EvRead :: new); cbn [record trace] in Ht;
      rewrite Ht, <- app_assoc; split; [reflexivity|];
      destruct (read_dispatch_counts f new Hcalls); auto
    end.
  - match goal with Hd : DispatchFrame _ _ ?f _ = _ |- _ =>
      apply DispatchFrame_trace in Hd; destruct Hd as (new & Ht & Hcalls);
      exists (EvRead :: new); cbn [record trace] in Ht;
      rewrite Ht, <- app_assoc; split; [reflexivity|];
      destruct (read_dispatch_counts f new Hcalls); auto
    end.
Qed.

Lemma Start_loop_reads ctx fuel p w r p' w' :
  Start_loop fuel p ctx w = Ret (r, p') w' ->
  once p' = once p
  /\ exists new,
       trace w' = trace w ++ new
       /\ count is_Close new = O
       /\ (ctx_Err ctx (env w) = None -> (1 <= count is_Read new)%nat).
Proof.
  intros H. apply Start_loop_inv in H.
  destruct H as (n & pn & wn & Hit & Hstop).
  pose proof (iterations_keep ctx n _ _ Hit) as (_ & Ho1 & _).
  pose proof (stops_keeps ctx _ _ _ _ _ Hstop) as (_ & Ho2 & _).
  cbn [fst] in Ho1. split; [congruence|].
  pose proof (stops_reads ctx _ _ _ _ _ Hstop) as (b & Hb & Hcb & Hrb).
  inversion Hit as [s|m s1 [p2 w2] s3 Hstep Hrest]; subst.
  - exists b. auto.
  - pose proof (iterations_trace ctx m _ _ Hrest) as (a & Ha & _ & Hca).
    cbn [snd] in Ha.
    pose proof (iteration_reads ctx _ _ _ _ Hstep) as (d & Hd & Hcd & Hrd).
    exists (d ++ a ++ b).
    rewrite Hb, Ha, Hd, <- !app_assoc. split; [reflexivity|].
    rewrite !count_app. split; lia.
Qed.

(** X16.  [Start] does not look at whether the transport is closed: when
    the once has fired before [Start] is called, [Start] is its loop and
    nothing more; it still reads from the connection (at least once, unless
    the context is done) and dispatches, and it does not call [conn.Close]
    again. *)
Theorem Start_after_Close ctx fuel p w :
  once p = true ->
  Start fuel p ctx w = Start_loop fuel p ctx w
  /\ forall r p' w',
       Start fuel p ctx w = Ret (r, p') w' ->
       exists new,
         trace w' = trace w ++ new
         /\ count is_Close new = O
         /\ (ctx_Err ctx (env w) = None -> (1 <= count is_Read new)%nat).
Proof.
  intros Ho.
  assert (E : Start fuel p ctx w = Start_loop fuel p ctx w).
  { unfold Start. unfold bind at 1.
    destruct (Start_loop fuel p ctx w) as [[r1 p1] w1| |] eqn:Hloop;
      try reflexivity.
    apply Start_loop_reads in Hloop. destruct Hloop as (Ho1 & _).
    unfold bind. rewrite Close_eq, Ho1, Ho. reflexivity. }
  split; [exact E|].
  intros r p' w' H. rewrite E in H.
  apply Start_loop_reads in H. destruct H as (_ & H). exact H.
Qed.

(** X17.  [Start] never returns the NoHandler error itself: what it returns
    is nil, the context's error, or an error it has wrapped, so
    [IsNoHandlerError] is false of its result (the context's error not being
    the NoHandler error, which is private to the package), also when a
    missing handler is what stopped it. *)
Theorem Start_result_not_NoHandler ctx fuel p w r p' w' :
  (forall e, ctx_Err ctx e <> Some errNoHandler) ->
  Start fuel p ctx w = Ret (r, p') w' ->
  IsNoHandlerError r = false.
Proof.
  intros Hctx H. unfold Start in H. unfold bind at 1 in H.
  destruct (Start_loop fuel p ctx w) as [[r1 p1] w1| |] eqn:Hloop;
    try discriminate.
  unfold bind in H.
  destruct (Close p1 w1) as [[err p2] w2| |]; try discriminate.
  inversion H; subst.
  apply Start_loop_inv in Hloop.
  destruct Hloop as (n & pn & wn & _ & Hstop).
  inversion Hstop; subst; try reflexivity.
  match goal with
  | E : ctx_Err ctx _ = Some ?e |- _ =>
      destruct e; try reflexivity; exfalso; exact (Hctx _ E)
  end.
Qed.
End TransportMore.

(** ** Further runs in the scripted environment *)

(** Registering [noting] for Payload frames on a bare transport, then
    unregistering it. *)
Lemma Handle_then_DispatchFrame_witness :
  DispatchFrame (Handle bare OnPayload (Some noting)) ctx payload3
    (start (quiet []))
  = Ret (None, Handle bare OnPayload (Some noting))
        (mkWorld (note 3 (quiet []))
           [EvSetDeadline 90000001000; EvHandle noting payload3])
  /\ DispatchFrame (Handle bare OnPayload None) ctx payload3
       (start (quiet []))
     = Ret (Some errNoHandler, Handle bare OnPayload None)
           (mkWorld (quiet []) [EvSetDeadline 90000001000]).
Proof.
  exact (Handle_then_DispatchFrame bare scripted ctx payload3 OnPayload
           noting (start (quiet [])) (quiet [])
           eq_refl eq_refl eq_refl eq_refl eq_refl eq_refl).
Defined.

(** A lifetime of 5000 on a bare transport, then a Payload frame. *)
Lemma SetLifetime_then_deadline_witness :
  exists r p' w' rest,
    DispatchFrame (SetLifetime bare 5000) ctx payload3 (start (quiet []))
    = Ret (r, p') w'
    /\ maxLifetime p' = 5000
    /\ trace w' = [] ++ EvSetDeadline (1000 + 5000) :: rest
    /\ deadlines rest = [].
Proof.
  refine (proj2 (proj2 (proj2 (proj2 (proj2 (proj2 (proj2
            (SetLifetime_then_deadline bare 5000)))))))
            scripted ctx payload3 (start (quiet []))
            _ eq_refl eq_refl eq_refl eq_refl _).
  - lia.
  - discriminate.
Defined.

(** A send without flush, then a flush. *)
Lemma Send_then_Flush_witness :
  bind (Send (Some wired) outgoing false) (fun _ => Flush (Some wired))
    (start (quiet []))
  = Ret None
        (mkWorld (note 99 (quiet []))
           [EvWrite outgoing; EvDone outgoing; EvFlush]).
Proof.
  exact (proj1 (Send_then_Flush wired scripted outgoing (start (quiet []))
                  (quiet []) eq_refl eq_refl)).
Defined.

(** A send after a close. *)
Lemma Send_after_Close_witness :
  exists err p' w',
    Close wired (start (quiet [])) = Ret (err, p') w'
    /\ once p' = true
    /\ conn p' = Some scripted
    /\ Send (Some p') outgoing true w' = Send (Some wired) outgoing true w'.
Proof.
  destruct (Send_after_Close wired scripted outgoing true (start (quiet []))
              eq_refl) as (err & p' & w' & H1 & H2 & H3 & H4 & _).
  exists err, p', w'. auto.
Defined.

(** A first read that meets the end of the stream. *)
Lemma ReadFirst_closes_on_error_witness :
  ReadFirst wired ctx (start (quiet []))
  = Ret (None, Some (errWrap io_EOF "read first frame failed"),
         set_once wired true)
        (mkWorld (quiet []) [EvRead; EvClose]).
Proof.
  exact (proj2 (proj2 (ReadFirst_closes_on_error wired scripted ctx
                         (start (quiet [])) eq_refl))
           io_EOF (quiet []) eq_refl eq_refl).
Defined.

(** The calls made for a Keepalive frame. *)
Lemma DispatchFrame_calls_witness :
  exists new,
    [EvSetDeadline 90000001000; EvHandle noting keepalive] = [] ++ new
    /\ dispatch_calls keepalive new.
Proof.
  destruct (DispatchFrame_calls (G := globals) wired ctx keepalive (start (quiet []))
              None (set_lastRcvPos wired 42)
              (mkWorld (note 0 (quiet []))
                 [EvSetDeadline 90000001000; EvHandle noting keepalive])
              eq_refl) as (new & Ht & Hc & _).
  exists new. split; assumption.
Defined.


(** A run on a transport whose handler fails. *)
Lemma handler_error_ends_Start_witness :
  Start 1 faulty ctx (start (quiet [inl payload3]))
  = Ret (Some (errWrap (errWrap (errIO "boom") "handle frame Payload failed:")
                 "dispatch incoming frame failed:"),
         set_once faulty true)
        (mkWorld (quiet [])
           [EvRead; EvSetDeadline 90000001000; EvHandle failing payload3;
            EvClose]).
Proof.
  exact (handler_error_ends_Start faulty scripted ctx payload3 failing
           (start (quiet [inl payload3])) (quiet []) (quiet [])
           (errIO "boom") (quiet []) O
           eq_refl eq_refl eq_refl eq_refl eq_refl eq_refl eq_refl eq_refl
           eq_refl).
Defined.

(** A run on a connection that answers the deadline with [io.EOF]. *)
Lemma deadline_EOF_ends_Start_witness :
  Start 1 wired ctx (start (hangup [inl payload3]))
  = Ret (None, set_once wired true)
        (mkWorld (hangup []) [EvRead; EvSetDeadline 90000001000; EvClose]).
Proof.
  exact (deadline_EOF_ends_Start wired scripted ctx payload3
           (start (hangup [inl payload3])) (hangup []) (hangup []) O
           eq_refl eq_refl eq_refl eq_refl eq_refl eq_refl eq_refl).
Defined.

(** A transport made from a nil connection. *)
Lemma without_connection_witness :
  Send (Some unconnected) outgoing true (start (quiet []))
  = Ret (Some errTransportClosed) (start (quiet []))
  /\ Close unconnected (start (quiet [])) = Panic
  /\ Start 1 unconnected ctx (start (quiet [])) = Panic.
Proof.
  pose proof (without_connection unconnected ctx outgoing true
                (start (quiet [])) eq_refl)
    as (H1 & _ & _ & _ & H5 & _ & H7 & _).
  split; [exact H1|]. split; [exact (H5 eq_refl)|exact (H7 eq_refl O)].
Defined.

(** A Payload frame handled without error. *)
Lemma DispatchFrame_nil_witness :
  (dropped payload3 = true
   /\ [EvSetDeadline 90000001000; EvHandle noting payload3]
      = [] ++ [EvWarnf (Env := Net) 3])
  \/ (exists c h e1 e2,
        conn wired = Some c
        /\ registered wired payload3 = Some h
        /\ conn_SetDeadline c (1000 + 90000000000) (quiet []) = (None, e1)
        /\ h payload3 e1 = (None, e2)
        /\ note 3 (quiet []) = e2
        /\ [EvSetDeadline 90000001000; EvHandle noting payload3]
           = [] ++ [EvSetDeadline (1000 + 90000000000); EvHandle h payload3]).
Proof.
  exact (DispatchFrame_nil (G := globals) wired ctx payload3 (start (quiet [])) wired
           (mkWorld (note 3 (quiet []))
              [EvSetDeadline 90000001000; EvHandle noting payload3])
           eq_refl).
Defined.

(** A run on a transport that was closed before. *)
Lemma Start_after_Close_witness :
  Start 5 (set_once wired true) ctx (start (quiet [inl payload3]))
  = Start_loop 5 (set_once wired true) ctx (start (quiet [inl payload3])).
Proof.
  exact (proj1 (Start_after_Close (G := globals) ctx 5 (set_once wired true)
                  (start (quiet [inl payload3])) eq_refl)).
Defined.

(** A run stopped by a missing handler. *)
Lemma Start_result_not_NoHandler_witness :
  IsNoHandlerError
    (Some (errWrap errNoHandler "dispatch incoming frame failed:")) = false.
Proof.
  refine (Start_result_not_NoHandler (G := globals) background 1 bare
            (start (quiet [inl payload3]))
            (Some (errWrap errNoHandler "dispatch incoming frame failed:"))
            (set_once bare true)
            (mkWorld (quiet []) [EvRead; EvSetDeadline 90000001000; EvClose])
            _ eq_refl).
  intros e. discriminate.
Defined.
